(** * connectCurrentRefinedValues: extraction, ordering, labelling and
      clearing of the current refinements

    Shallow embedding of
    [src/connectors/current-refined-values/connectCurrentRefinedValues.js]:
    [getRestrictedIndexForSort], [compareRefinements],
    [getFilteredRefinements], [clearRefinementFromState] and [computeLabel],
    together with the few JavaScript built-ins they call. *)

From Stdlib Require Import Ascii String DecimalString.
From Stdlib Require Import ZArith NArith List Bool Lia.
From Stdlib Require Import Sorting.Sorted Sorting.Permutation.
Import ListNotations.

Local Open Scope Z_scope.
Local Open Scope list_scope.

(** ** JavaScript values and built-ins *)

Module JS.

(** A JavaScript string is a finite sequence of UTF-16 code units. *)
Definition code_unit := N.
Definition jsstring := list code_unit.

(** String literals of the source that are plain ASCII. *)
Definition js (s : string) : jsstring :=
  map N_of_ascii (list_ascii_of_string s).

(** [a === b] on two strings: same code units. *)
Fixpoint string_eqb (a b : jsstring) : bool :=
  match a, b with
  | [], [] => true
  | c :: a', d :: b' => N.eqb c d && string_eqb a' b'
  | _, _ => false
  end.

(** [a < b] on two strings: the first differing code unit decides, and a
    proper prefix is smaller. *)
Fixpoint string_ltb (a b : jsstring) : bool :=
  match a, b with
  | _, [] => false
  | [], _ :: _ => true
  | c :: a', d :: b' =>
      if N.ltb c d then true
      else if N.eqb c d then string_ltb a' b'
      else false
  end.

(** The values a field of a refinement record can hold.  Numbers are the
    integers: the code does no arithmetic on them apart from array indices. *)
Inductive value : Type :=
  | VUndefined
  | VNull
  | VBoolean (b : bool)
  | VNumber (n : Z)
  | VString (s : jsstring)
  | VObject (ref : positive).

(** Strict equality [x === y]. *)
Definition strict_equals (x y : value) : bool :=
  match x, y with
  | VUndefined, VUndefined => true
  | VNull, VNull => true
  | VBoolean a, VBoolean b => Bool.eqb a b
  | VNumber a, VNumber b => Z.eqb a b
  | VString a, VString b => string_eqb a b
  | VObject a, VObject b => Pos.eqb a b
  | _, _ => false
  end.

(** Truthiness of a value used as a condition. *)
Definition ToBoolean (x : value) : bool :=
  match x with
  | VUndefined | VNull => false
  | VBoolean b => b
  | VNumber n => negb (Z.eqb n 0)
  | VString s => match s with [] => false | _ :: _ => true end
  | VObject _ => true
  end.

Definition typeof (x : value) : jsstring :=
  match x with
  | VUndefined => js "undefined"
  | VNull => js "object"
  | VBoolean _ => js "boolean"
  | VNumber _ => js "number"
  | VString _ => js "string"
  | VObject _ => js "object"
  end.

(** Conversion to a string inside a template literal. *)
Definition ToString (x : value) : jsstring :=
  match x with
  | VUndefined => js "undefined"
  | VNull => js "null"
  | VBoolean true => js "true"
  | VBoolean false => js "false"
  | VNumber n => js (NilZero.string_of_int (Z.to_int n))
  | VString s => s
  | VObject _ => js "[object Object]"
  end.

(** [l.indexOf(x)]: position of the first element strictly equal to [x],
    -1 when there is none. *)
Fixpoint indexOf (l : list value) (x : value) : Z :=
  match l with
  | [] => -1
  | y :: l' =>
      if strict_equals y x then 0
      else let i := indexOf l' x in
           if i =? -1 then -1 else i + 1
  end.

(** An array of strings as an array of values. *)
Definition strings (l : list jsstring) : list value := map VString l.

(** [l.sort(comparefn)].  The language leaves the algorithm to the engine
    and asks for a stable result; this is the stable insertion sort: an
    element moves behind those it compares greater than. *)
Fixpoint insert {A : Type} (comparefn : A -> A -> Z) (x : A) (l : list A)
  : list A :=
  match l with
  | [] => [x]
  | y :: l' =>
      if comparefn x y >? 0 then y :: insert comparefn x l'
      else x :: y :: l'
  end.

Definition sort {A : Type} (comparefn : A -> A -> Z) (l : list A) : list A :=
  fold_right (insert comparefn) [] l.

(** What [sort] reads off a comparator: [a] need not move behind [b]. *)
Definition not_after {A : Type} (comparefn : A -> A -> Z) (a b : A) : Prop :=
  comparefn a b <= 0.

(** A comparator that orders its arguments consistently. *)
Record consistent {A : Type} (comparefn : A -> A -> Z) : Prop := {
  consistent_total :
    forall a b, comparefn a b > 0 -> comparefn b a <= 0;
  consistent_trans :
    forall a b c,
      comparefn a b <= 0 -> comparefn b c <= 0 -> comparefn a c <= 0
}.

(** Outcome of a call that may throw. *)
Inductive completion (A : Type) : Type :=
  | Normal (result : A)
  | Throw (message : jsstring).
Arguments Normal {A} result.
Arguments Throw {A} message.

End JS.
Import JS.

(** ** Refinement records *)

(** A refinement as [getRefinements] returns it and as the render function
    receives it.  An optional field is [None] when the object has no such
    own property. *)
Record refinement : Type := mkRefinement {
  type : jsstring;
  attributeName : jsstring;
  name : jsstring;
  operator : option value;
  numericValue : option Z;
  count : option Z;
  computedLabel : option jsstring
}.

(** [r.operator] and [r.numericValue] read as properties. *)
Definition get_operator (r : refinement) : value :=
  match operator r with Some v => v | None => VUndefined end.

Definition get_numericValue (r : refinement) : value :=
  match numericValue r with Some n => VNumber n | None => VUndefined end.

(** [r.hasOwnProperty('operator')]. *)
Definition hasOwnProperty_operator (r : refinement) : bool :=
  match operator r with Some _ => true | None => false end.

(** [r.computedLabel = l]. *)
Definition set_computedLabel (r : refinement) (l : jsstring) : refinement :=
  {| type := type r; attributeName := attributeName r; name := name r;
     operator := operator r; numericValue := numericValue r;
     count := count r; computedLabel := Some l |}.

(** [delete r.operator]. *)
Definition delete_operator (r : refinement) : refinement :=
  {| type := type r; attributeName := attributeName r; name := name r;
     operator := None; numericValue := numericValue r;
     count := count r; computedLabel := computedLabel r |}.

(** ** Ordering *)

Definition getRestrictedIndexForSort
    (attributeNames otherAttributeNames : list jsstring)
    (attributeName : jsstring) : Z :=
  let idx := indexOf (strings attributeNames) (VString attributeName) in
  if negb (idx =? -1) then idx
  else Z.of_nat (length attributeNames)
       + indexOf (strings otherAttributeNames) (VString attributeName).

Definition compareRefinements
    (attributeNames otherAttributeNames : list jsstring)
    (a b : refinement) : Z :=
  let idxa :=
    getRestrictedIndexForSort attributeNames otherAttributeNames
      (attributeName a) in
  let idxb :=
    getRestrictedIndexForSort attributeNames otherAttributeNames
      (attributeName b) in
  if idxa =? idxb then
    if string_eqb (name a) (name b) then 0
    else if string_ltb (name a) (name b) then -1 else 1
  else if idxa <? idxb then -1 else 1.

(** ** Labeler *)

(** The two substituted symbols, U+2265 and U+2264. *)
Definition greater_or_equal_sign : jsstring := [8805%N].
Definition less_or_equal_sign : jsstring := [8804%N].

Definition computeLabel (value : refinement) : refinement :=
  let value := set_computedLabel value (name value) in
  if hasOwnProperty_operator value
     && string_eqb (typeof (get_operator value)) (js "string")
  then
    let displayedOperator := get_operator value in
    let displayedOperator :=
      if strict_equals (get_operator value) (VString (js ">="))
      then VString greater_or_equal_sign else displayedOperator in
    let displayedOperator :=
      if strict_equals (get_operator value) (VString (js "<="))
      then VString less_or_equal_sign else displayedOperator in
    set_computedLabel value
      (ToString displayedOperator ++ js " " ++ ToString (VString (name value)))
  else value.

(** ** Extractor *)

(** The callback of the [reduce] that builds [otherAttributeNames]: the
    second operand of [&&] is [res.indexOf(refinement.attributeName === -1)],
    a number used as a condition. *)
Definition otherAttributeNames_step
    (attributeNames : list jsstring) (res : list jsstring) (r : refinement)
  : list jsstring :=
  if (indexOf (strings attributeNames) (VString (attributeName r)) =? -1)
     && ToBoolean
          (VNumber
             (indexOf (strings res)
                (VBoolean
                   (strict_equals (VString (attributeName r))
                      (VNumber (-1))))))
  then res ++ [attributeName r]
  else res.

Definition otherAttributeNames
    (attributeNames : list jsstring) (refinements : list refinement)
  : list jsstring :=
  fold_left (otherAttributeNames_step attributeNames) refinements [].

(** [isEmpty] of lodash on an array. *)
Definition isEmpty {A : Type} (l : list A) : bool :=
  match l with [] => true | _ :: _ => false end.

(** The external helpers of [lib/utils.js] the extractor calls. *)
Class Utils (Results State : Type) : Type := {
  getRefinements : Results -> State -> list refinement
}.

(** The per-kind mutators of the search state, each returning a new state. *)
Class SearchParameters (State : Type) : Type := {
  removeFacetRefinement : State -> jsstring -> jsstring -> State;
  removeDisjunctiveFacetRefinement : State -> jsstring -> jsstring -> State;
  clearRefinements : State -> jsstring -> State;
  removeExcludeRefinement : State -> jsstring -> jsstring -> State;
  removeNumericRefinement : State -> jsstring -> value -> value -> State;
  removeTagRefinement : State -> jsstring -> State
}.

Section Connector.

Context {Results State : Type}.
Context {utils : Utils Results State}.
Context {params : SearchParameters State}.

Definition getFilteredRefinements
    (results : Results) (state : State)
    (attributeNames : list jsstring) (onlyListedAttributes : bool)
  : list refinement :=
  let refinements := getRefinements results state in
  let otherAttributeNames := otherAttributeNames attributeNames refinements in
  let refinements :=
    sort (compareRefinements attributeNames otherAttributeNames) refinements in
  let refinements :=
    if onlyListedAttributes && negb (isEmpty attributeNames)
    then filter
           (fun refinement =>
              negb (indexOf (strings attributeNames)
                      (VString (attributeName refinement)) =? -1))
           refinements
    else refinements in
  map computeLabel refinements.

(** ** Clearer *)

Definition clearRefinementFromState (state : State) (refinement : refinement)
  : completion State :=
  if string_eqb (type refinement) (js "facet") then
    Normal (removeFacetRefinement state
              (attributeName refinement) (name refinement))
  else if string_eqb (type refinement) (js "disjunctive") then
    Normal (removeDisjunctiveFacetRefinement state
              (attributeName refinement) (name refinement))
  else if string_eqb (type refinement) (js "hierarchical") then
    Normal (clearRefinements state (attributeName refinement))
  else if string_eqb (type refinement) (js "exclude") then
    Normal (removeExcludeRefinement state
              (attributeName refinement) (name refinement))
  else if string_eqb (type refinement) (js "numeric") then
    Normal (removeNumericRefinement state
              (attributeName refinement) (get_operator refinement)
              (get_numericValue refinement))
  else if string_eqb (type refinement) (js "tag") then
    Normal (removeTagRefinement state (name refinement))
  else
    Throw (js "clearRefinement: type " ++ type refinement
           ++ js " is not handled").

End Connector.

(** ** The ordering and the priority tail as the specification words them *)

(** Lexicographic order on strings. *)
Inductive lex_lt : jsstring -> jsstring -> Prop :=
  | lex_lt_prefix : forall d b, lex_lt [] (d :: b)
  | lex_lt_head : forall c d a b, (c < d)%N -> lex_lt (c :: a) (d :: b)
  | lex_lt_tail : forall c a b, lex_lt a b -> lex_lt (c :: a) (c :: b).

Definition lex_le (a b : jsstring) : Prop := a = b \/ lex_lt a b.

(** Position of the first occurrence of [x] in [l]; the length of [l] when
    [x] does not occur. *)
Fixpoint position (l : list jsstring) (x : jsstring) : nat :=
  match l with
  | [] => O
  | y :: l' => if string_eqb y x then O else S (position l' x)
  end.

(** Membership of an attribute name in a list of names, as a boolean. *)
Definition mem (x : jsstring) (l : list jsstring) : bool :=
  existsb (string_eqb x) l.

Definition is_listed (attributeNames : list jsstring) (r : refinement) : bool :=
  mem (attributeName r) attributeNames.

(** Rank of an attribute name among the raw refinements: the position of the
    first refinement that carries it. *)
Definition first_seen (raw : list refinement) (a : jsstring) : nat :=
  position (map attributeName raw) a.

(** The Ordering Key: [a] may stand before [b]. *)
Record ordering_key_le
    (attributeNames : list jsstring) (raw : list refinement)
    (a b : refinement) : Prop := {
  listed_before_unlisted :
    In (attributeName b) attributeNames -> In (attributeName a) attributeNames;
  declared_order :
    In (attributeName a) attributeNames ->
    In (attributeName b) attributeNames ->
    (position attributeNames (attributeName a)
     <= position attributeNames (attributeName b))%nat;
  first_seen_order :
    ~ In (attributeName a) attributeNames ->
    ~ In (attributeName b) attributeNames ->
    (first_seen raw (attributeName a) <= first_seen raw (attributeName b))%nat;
  name_order :
    attributeName a = attributeName b -> lex_le (name a) (name b)
}.

(** Keeps the first occurrence of every name. *)
Fixpoint dedup (l : list jsstring) : list jsstring :=
  match l with
  | [] => []
  | x :: l' => x :: filter (fun y => negb (string_eqb y x)) (dedup l')
  end.

(** [otherNames]: the attribute names present in the raw refinements and
    absent from the declared list, each once, in first-occurrence order. *)
Definition otherNames
    (attributeNames : list jsstring) (refinements : list refinement)
  : list jsstring :=
  dedup (filter (fun a => negb (mem a attributeNames))
           (map attributeName refinements)).

(** The label as a function of the [name] and [operator] fields alone. *)
Definition label_of (name : jsstring) (operator : option value) : jsstring :=
  match operator with
  | Some (VString op) =>
      (if string_eqb op (js ">=") then greater_or_equal_sign
       else if string_eqb op (js "<=") then less_or_equal_sign
       else op) ++ js " " ++ name
  | _ => name
  end.

(** The six kinds the clearer knows. *)
Definition recognized_types : list jsstring :=
  [js "facet"; js "disjunctive"; js "hierarchical"; js "exclude";
   js "numeric"; js "tag"].

Section ConnectorSpec.

Context {Results State : Type}.
Context {utils : Utils Results State}.

(** The extractor with the deduplicated priority tail in place of the tail
    the code builds. *)
Definition getFilteredRefinements_otherNames
    (results : Results) (state : State)
    (attributeNames : list jsstring) (onlyListedAttributes : bool)
  : list refinement :=
  let refinements := getRefinements results state in
  let refinements :=
    sort (compareRefinements attributeNames
            (otherNames attributeNames refinements)) refinements in
  let refinements :=
    if onlyListedAttributes && negb (isEmpty attributeNames)
    then filter (is_listed attributeNames) refinements
    else refinements in
  map computeLabel refinements.

End ConnectorSpec.

(** ** A model of the search state *)

Module Model.

(** Modelled from the spec: the query state owned by the search client
    (algoliasearch-helper, not part of this file) and [getRefinements] of
    [lib/utils.js].  Section 3 makes the state a functionally updated
    structure holding the active refinements of each kind; section 6 gives
    one mutator per kind and asks [getRefinements] for one entry per active
    refinement with [type], [attributeName], [name], and [operator] and
    [numericValue] for the numeric kind. *)
Record QueryState : Type := mkQueryState {
  facetsRefinements : list (jsstring * jsstring);
  disjunctiveFacetsRefinements : list (jsstring * jsstring);
  hierarchicalFacetsRefinements : list (jsstring * jsstring);
  facetsExcludes : list (jsstring * jsstring);
  numericRefinements : list (jsstring * (jsstring * Z));
  tagRefinements : list jsstring
}.

(** Modelled from the spec: the result metadata, which only supplies the
    optional [count] of a facet value. *)
Definition Results : Type := jsstring -> jsstring -> option Z.

Definition attribute_is (a : jsstring) {B : Type} (e : jsstring * B) : bool :=
  string_eqb (fst e) a.

Definition pair_is (a v : jsstring) (e : jsstring * jsstring) : bool :=
  string_eqb (fst e) a && string_eqb (snd e) v.

Definition numeric_is (a : jsstring) (op v : value)
    (e : jsstring * (jsstring * Z)) : bool :=
  string_eqb (fst e) a
  && strict_equals (VString (fst (snd e))) op
  && strict_equals (VNumber (snd (snd e))) v.

Definition without {B : Type} (p : B -> bool) (l : list B) : list B :=
  filter (fun e => negb (p e)) l.

(** Modelled from the spec: "remove exact facet value for attributeName". *)
Definition model_removeFacetRefinement (s : QueryState) (a v : jsstring)
  : QueryState :=
  {| facetsRefinements := without (pair_is a v) (facetsRefinements s);
     disjunctiveFacetsRefinements := disjunctiveFacetsRefinements s;
     hierarchicalFacetsRefinements := hierarchicalFacetsRefinements s;
     facetsExcludes := facetsExcludes s;
     numericRefinements := numericRefinements s;
     tagRefinements := tagRefinements s |}.

(** Modelled from the spec: "remove value from disjunctive facet for
    attributeName". *)
Definition model_removeDisjunctiveFacetRefinement
    (s : QueryState) (a v : jsstring) : QueryState :=
  {| facetsRefinements := facetsRefinements s;
     disjunctiveFacetsRefinements :=
       without (pair_is a v) (disjunctiveFacetsRefinements s);
     hierarchicalFacetsRefinements := hierarchicalFacetsRefinements s;
     facetsExcludes := facetsExcludes s;
     numericRefinements := numericRefinements s;
     tagRefinements := tagRefinements s |}.

(** Modelled from the spec: "clear all refinements for attributeName". *)
Definition model_clearRefinements (s : QueryState) (a : jsstring)
  : QueryState :=
  {| facetsRefinements := without (attribute_is a) (facetsRefinements s);
     disjunctiveFacetsRefinements :=
       without (attribute_is a) (disjunctiveFacetsRefinements s);
     hierarchicalFacetsRefinements :=
       without (attribute_is a) (hierarchicalFacetsRefinements s);
     facetsExcludes := without (attribute_is a) (facetsExcludes s);
     numericRefinements := without (attribute_is a) (numericRefinements s);
     tagRefinements := tagRefinements s |}.

(** Modelled from the spec: "remove excluded value for attributeName". *)
Definition model_removeExcludeRefinement (s : QueryState) (a v : jsstring)
  : QueryState :=
  {| facetsRefinements := facetsRefinements s;
     disjunctiveFacetsRefinements := disjunctiveFacetsRefinements s;
     hierarchicalFacetsRefinements := hierarchicalFacetsRefinements s;
     facetsExcludes := without (pair_is a v) (facetsExcludes s);
     numericRefinements := numericRefinements s;
     tagRefinements := tagRefinements s |}.

(** Modelled from the spec: "remove the specific (operator, numericValue)
    pair for attributeName". *)
Definition model_removeNumericRefinement
    (s : QueryState) (a : jsstring) (op v : value) : QueryState :=
  {| facetsRefinements := facetsRefinements s;
     disjunctiveFacetsRefinements := disjunctiveFacetsRefinements s;
     hierarchicalFacetsRefinements := hierarchicalFacetsRefinements s;
     facetsExcludes := facetsExcludes s;
     numericRefinements := without (numeric_is a op v) (numericRefinements s);
     tagRefinements := tagRefinements s |}.

(** Modelled from the spec: "remove the tag by name". *)
Definition model_removeTagRefinement (s : QueryState) (v : jsstring)
  : QueryState :=
  {| facetsRefinements := facetsRefinements s;
     disjunctiveFacetsRefinements := disjunctiveFacetsRefinements s;
     hierarchicalFacetsRefinements := hierarchicalFacetsRefinements s;
     facetsExcludes := facetsExcludes s;
     numericRefinements := numericRefinements s;
     tagRefinements :=
       without (fun t => string_eqb t v) (tagRefinements s) |}.

(** Modelled from the spec: the record of a facet-like refinement, with the
    count the results give for it. *)
Definition facet_record (results : Results) (kind : jsstring)
    (e : jsstring * jsstring) : refinement :=
  {| type := kind; attributeName := fst e; name := snd e;
     operator := None; numericValue := None;
     count := results (fst e) (snd e); computedLabel := None |}.

(** Modelled from the spec: the record of a numeric refinement; its [name]
    is the refined value as a string. *)
Definition numeric_record (e : jsstring * (jsstring * Z)) : refinement :=
  {| type := js "numeric"; attributeName := fst e;
     name := ToString (VNumber (snd (snd e)));
     operator := Some (VString (fst (snd e)));
     numericValue := Some (snd (snd e));
     count := None; computedLabel := None |}.

(** Modelled from the spec: the record of a tag.  The record shape asks for
    an attribute name; tags get a reserved one. *)
Definition tag_record (t : jsstring) : refinement :=
  {| type := js "tag"; attributeName := js "_tags"; name := t;
     operator := None; numericValue := None;
     count := None; computedLabel := None |}.

(** Modelled from the spec: [getRefinements], one entry per active
    refinement across the six kinds. *)
Definition model_getRefinements (results : Results) (s : QueryState)
  : list refinement :=
  map (facet_record results (js "facet")) (facetsRefinements s)
  ++ map (facet_record results (js "exclude")) (facetsExcludes s)
  ++ map (facet_record results (js "disjunctive"))
       (disjunctiveFacetsRefinements s)
  ++ map (facet_record results (js "hierarchical"))
       (hierarchicalFacetsRefinements s)
  ++ map numeric_record (numericRefinements s)
  ++ map tag_record (tagRefinements s).

#[export] Instance model_utils : Utils Results QueryState :=
  {| getRefinements := model_getRefinements |}.

#[export] Instance model_params : SearchParameters QueryState :=
  {| removeFacetRefinement := model_removeFacetRefinement;
     removeDisjunctiveFacetRefinement := model_removeDisjunctiveFacetRefinement;
     clearRefinements := model_clearRefinements;
     removeExcludeRefinement := model_removeExcludeRefinement;
     removeNumericRefinement := model_removeNumericRefinement;
     removeTagRefinement := model_removeTagRefinement |}.

End Model.

(** ** Sample data *)

Module Sample.
Import Model.

Definition color_red : refinement :=
  facet_record (fun _ _ => None) (js "facet") (js "color", js "red").
Definition color_blue : refinement :=
  facet_record (fun _ _ => None) (js "facet") (js "color", js "blue").
Definition tag_sale : refinement := tag_record (js "sale").
Definition price_ge_10 : refinement := numeric_record (js "price", (js ">=", 10)).
Definition price_le_5 : refinement := numeric_record (js "price", (js "<=", 5)).
Definition price_eq_3 : refinement := numeric_record (js "price", (js "=", 3)).

Definition brand_not_acme : refinement :=
  facet_record (fun _ _ => None) (js "exclude") (js "brand", js "acme").
Definition size_large : refinement :=
  facet_record (fun _ _ => None) (js "disjunctive") (js "size", js "large").
Definition category_shoes : refinement :=
  facet_record (fun _ _ => None) (js "hierarchical")
    (js "category", js "shoes").

(** A record whose [operator] field holds a number. *)
Definition odd_operator : refinement :=
  {| type := js "numeric"; attributeName := js "price"; name := js "10";
     operator := Some (VNumber 7); numericValue := Some 10;
     count := None; computedLabel := None |}.

(** A record of a kind the clearer does not know. *)
Definition unknown_kind : refinement :=
  {| type := js "range"; attributeName := js "price"; name := js "10";
     operator := None; numericValue := None;
     count := None; computedLabel := None |}.

(** The state of the examples: two values of [color] and one tag. *)
Definition state0 : QueryState :=
  {| facetsRefinements := [(js "color", js "red"); (js "color", js "blue")];
     disjunctiveFacetsRefinements := [];
     hierarchicalFacetsRefinements := [];
     facetsExcludes := [];
     numericRefinements := [(js "price", (js ">=", 10))];
     tagRefinements := [js "sale"] |}.

Definition no_results : Results := fun _ _ => None.

End Sample.

(** ** The widget factory and its callbacks *)

Module Widget.

(** The values a widget parameter can hold. *)
#[warnings="-register-all"]
Inductive param : Type :=
  | PUndefined
  | PNull
  | PBoolean (b : bool)
  | PNumber (n : Z)
  | PString (s : jsstring)
  | PFunction (ref : positive)
  | PArray (elements : list param)
  | PObject (plain : bool) (properties : list (jsstring * param)).

(** The type tests of lodash. *)
Definition isUndefined (v : param) : bool :=
  match v with PUndefined => true | _ => false end.
Definition isBoolean (v : param) : bool :=
  match v with PBoolean _ => true | _ => false end.
Definition isString (v : param) : bool :=
  match v with PString _ => true | _ => false end.
Definition isArray (v : param) : bool :=
  match v with PArray _ => true | _ => false end.
Definition isPlainObject (v : param) : bool :=
  match v with PObject plain _ => plain | _ => false end.
Definition isFunction (v : param) : bool :=
  match v with PFunction _ => true | _ => false end.

(** [o[key]] on the properties of an object: [undefined] when absent. *)
Fixpoint get (properties : list (jsstring * param)) (key : jsstring)
  : param :=
  match properties with
  | [] => PUndefined
  | (k, v) :: properties' =>
      if string_eqb k key then v else get properties' key
  end.

(** [o[key] = v]: an existing property takes the new value, a new one is
    added.  Only lookups are read off such an object here. *)
Fixpoint set (properties : list (jsstring * param)) (key : jsstring)
    (v : param) : list (jsstring * param) :=
  match properties with
  | [] => [(key, v)]
  | (k, v') :: properties' =>
      if string_eqb k key then (k, v) :: properties'
      else (k, v') :: set properties' key v
  end.

(** [val.key].  The code reads a property only behind [isPlainObject(val)];
    the other cases are not reached. *)
Definition prop (val : param) (key : jsstring) : param :=
  match val with
  | PObject _ properties => get properties key
  | _ => PUndefined
  end.

Definition elements_of (v : param) : list param :=
  match v with PArray elements => elements | _ => [] end.

(** The string held by a value that passed [isString]. *)
Definition string_of (v : param) : jsstring :=
  match v with PString s => s | _ => [] end.

(** The boolean held by a value that passed [isBoolean]. *)
Definition boolean_of (v : param) : bool :=
  match v with PBoolean b => b | _ => false end.

(** A destructuring default: it applies to [undefined] only. *)
Definition default (d v : param) : param :=
  match v with PUndefined => d | _ => v end.

Definition usage : jsstring := js
"Usage:
var customCurrentRefinedValues = connectCurrentRefinedValues(function renderFn(params, isFirstRendering) {
  // params = {
  //   attributes,
  //   clearAllClick,
  //   clearAllPosition,
  //   clearAllURL,
  //   refine,
  //   createURL,
  //   refinements,
  //   instantSearchInstance,
  //   widgetParams,
  // }
});
search.addWidget(
  customCurrentRefinedValues({
    [ attributes = [] ],
    [ onlyListedAttributes = false ],
    [ clearsQuery = false ]
  })
);
Full documentation available at https://community.algolia.com/instantsearch.js/connectors/connectCurrentRefinedValues.html
".

(** The parameters object; a property that is not given is [PUndefined], and
    the default [{}] has the three of them so. *)
Record widgetParams : Type := mkWidgetParams {
  attributes : param;
  onlyListedAttributes : param;
  clearsQuery : param
}.

(** The callback of the [reduce] that checks the attributes. *)
Definition attributesOK_step (res : bool) (val : param) : bool :=
  res
  && isPlainObject val
  && isString (prop val (js "name"))
  && (isUndefined (prop val (js "label"))
      || isString (prop val (js "label")))
  && (isUndefined (prop val (js "template"))
      || isString (prop val (js "template"))
      || isFunction (prop val (js "template")))
  && (isUndefined (prop val (js "transformData"))
      || isFunction (prop val (js "transformData"))).

(** The callback of the [reduce] that builds [attributesObj]. *)
Definition attributesObj_step (res : list (jsstring * param))
    (attribute : param) : list (jsstring * param) :=
  set res (string_of (prop attribute (js "name"))) attribute.

(** What the widget keeps from its parameters once they are accepted. *)
Record widget : Type := mkWidget {
  attributeNames : list jsstring;
  restrictedTo : list jsstring;
  attributesObj : list (jsstring * param);
  onlyListed : bool;
  clearsQueryParam : param
}.

(** The function [connectCurrentRefinedValues(renderFn)] returns, up to the
    point where it returns the widget object. *)
Definition makeWidget (widgetParams : widgetParams) : completion widget :=
  let attributes := default (PArray []) (attributes widgetParams) in
  let onlyListedAttributes :=
    default (PBoolean false) (onlyListedAttributes widgetParams) in
  let clearsQuery := default (PBoolean false) (clearsQuery widgetParams) in
  let attributesOK :=
    isArray attributes
    && fold_left attributesOK_step (elements_of attributes) true in
  let showUsage :=
    false
    || negb (isArray attributes)
    || negb attributesOK
    || negb (isBoolean onlyListedAttributes) in
  if showUsage then Throw usage
  else
    let attributeNames :=
      map (fun attribute => string_of (prop attribute (js "name")))
        (elements_of attributes) in
    let restrictedTo :=
      if boolean_of onlyListedAttributes then attributeNames else [] in
    let attributesObj :=
      fold_left attributesObj_step (elements_of attributes) [] in
    Normal {| attributeNames := attributeNames;
              restrictedTo := restrictedTo;
              attributesObj := attributesObj;
              onlyListed := boolean_of onlyListedAttributes;
              clearsQueryParam := clearsQuery |}.

(** An attribute object the factory accepts, property by property. *)
Definition valid_attribute (val : param) : Prop :=
  isPlainObject val = true
  /\ (exists s, prop val (js "name") = PString s)
  /\ (prop val (js "label") = PUndefined
      \/ exists s, prop val (js "label") = PString s)
  /\ (prop val (js "template") = PUndefined
      \/ (exists s, prop val (js "template") = PString s)
      \/ exists f, prop val (js "template") = PFunction f)
  /\ (prop val (js "transformData") = PUndefined
      \/ exists f, prop val (js "transformData") = PFunction f).

(** The search helper, as far as [clearRefinement] uses it. *)
Class SearchHelper (Helper State : Type) : Type := {
  helper_state : Helper -> State;
  setState : Helper -> State -> Helper;
  search : Helper -> Helper
}.

Section Callbacks.

Context {Results State Helper URL : Type}.
Context {utils : Utils Results State}.
Context {params : SearchParameters State}.
Context {search_helper : SearchHelper Helper State}.



(** The [refinements] that [init] hands to the render function;
    [no_results] stands for the [{}] it passes as results. *)
Definition init_refinements (no_results : Results) (w : widget)
    (helper : Helper) : list refinement :=
  getFilteredRefinements no_results (helper_state helper)
    (attributeNames w) (onlyListed w).

(** The [refinements] that [render] hands to the render function. *)
Definition render_refinements (w : widget) (results : Results)
    (state : State) : list refinement :=
  getFilteredRefinements results state (attributeNames w) (onlyListed w).

End Callbacks.

End Widget.

(** ** Sample widget parameters and helper *)

Module WidgetSample.
Import Model Sample Widget.

Definition color_attribute : param :=
  PObject true [(js "name", PString (js "color"));
                (js "label", PString (js "Colour"))].

Definition price_attribute : param :=
  PObject true [(js "name", PString (js "price"));
                (js "template", PFunction 1)].

Definition color_again : param :=
  PObject true [(js "name", PString (js "color"));
                (js "label", PString (js "Shade"))].

Definition listed_only : widgetParams :=
  {| attributes := PArray [color_attribute; price_attribute; color_again];
     onlyListedAttributes := PBoolean true;
     clearsQuery := PUndefined |}.

Definition no_params : widgetParams :=
  {| attributes := PUndefined; onlyListedAttributes := PUndefined;
     clearsQuery := PUndefined |}.

Definition bad_flag : widgetParams :=
  {| attributes := PArray [color_attribute];
     onlyListedAttributes := PString (js "yes");
     clearsQuery := PUndefined |}.

(** A helper that records the states it was asked to search. *)
Record logging_helper : Type := mkHelper {
  current : QueryState;
  searched : list QueryState
}.

#[export] Instance logging_search_helper
  : SearchHelper logging_helper QueryState :=
  {| helper_state := current;
     setState := fun h s => {| current := s; searched := searched h |};
     search := fun h =>
       {| current := current h; searched := searched h ++ [current h] |} |}.


End WidgetSample.

(** * Properties *)

(** ** Strings *)

Lemma string_eqb_eq (a b : jsstring) : string_eqb a b = true <-> a = b.
Proof.
  revert b; induction a as [|c a IH]; intros [|d b]; simpl;
    try (split; congruence).
  rewrite andb_true_iff, N.eqb_eq, IH.
  split; [intros [-> ->]; reflexivity | intros [= -> ->]; auto].
Qed.

Lemma string_eqb_refl (a : jsstring) : string_eqb a a = true.
Proof. now apply string_eqb_eq. Qed.

Lemma string_eqb_neq (a b : jsstring) : string_eqb a b = false <-> a <> b.
Proof.
  rewrite <- string_eqb_eq. destruct (string_eqb a b); split; congruence.
Qed.

Lemma string_eqb_sym (a b : jsstring) : string_eqb a b = string_eqb b a.
Proof.
  destruct (string_eqb b a) eqn:E.
  - apply string_eqb_eq in E; subst; apply string_eqb_refl.
  - apply string_eqb_neq. apply string_eqb_neq in E. congruence.
Qed.

Lemma string_ltb_lex (a b : jsstring) : string_ltb a b = true <-> lex_lt a b.
Proof.
  revert b; induction a as [|c a IH]; intros [|d b]; simpl.
  - split; [discriminate | inversion 1].
  - split; [constructor | reflexivity].
  - split; [discriminate | inversion 1].
  - destruct (N.ltb_spec c d) as [Hlt|Hge].
    + split; [intros _; now constructor | reflexivity].
    + destruct (N.eqb_spec c d) as [->|Hne].
      * rewrite IH. split; [now constructor|].
        inversion 1; subst; [lia | assumption].
      * split; [discriminate|]. inversion 1; subst; [lia | congruence].
Qed.

Lemma string_ltb_trans (a b c : jsstring) :
  string_ltb a b = true -> string_ltb b c = true -> string_ltb a c = true.
Proof.
  revert b c; induction a as [|x a IH]; intros [|y b] [|z c]; simpl;
    try congruence.
  destruct (N.ltb_spec x y), (N.ltb_spec y z), (N.ltb_spec x z);
    try reflexivity; try lia;
    destruct (N.eqb_spec x y), (N.eqb_spec y z), (N.eqb_spec x z);
    try congruence; try lia.
  apply IH.
Qed.

Lemma string_ltb_total (a b : jsstring) :
  string_ltb a b = false -> string_eqb a b = false -> string_ltb b a = true.
Proof.
  revert b; induction a as [|x a IH]; intros [|y b]; simpl; try congruence.
  destruct (N.ltb_spec x y), (N.ltb_spec y x); try reflexivity; try lia;
    try congruence.
  destruct (N.eqb_spec x y), (N.eqb_spec y x); try lia; try congruence.
  simpl. apply IH.
Qed.

(** ** Array search *)

Lemma mem_In (x : jsstring) (l : list jsstring) : mem x l = true <-> In x l.
Proof.
  unfold mem. rewrite existsb_exists. split.
  - intros (y & Hy & E). apply string_eqb_eq in E. now subst.
  - intros H. exists x. split; [assumption | apply string_eqb_refl].
Qed.

Lemma mem_not_In (x : jsstring) (l : list jsstring) :
  mem x l = false <-> ~ In x l.
Proof.
  rewrite <- mem_In. destruct (mem x l); split; congruence.
Qed.

Lemma mem_cons (x y : jsstring) (l : list jsstring) :
  mem x (y :: l) = string_eqb y x || mem x l.
Proof. unfold mem; simpl. now rewrite string_eqb_sym. Qed.

Lemma position_bound (l : list jsstring) (x : jsstring) :
  mem x l = true -> (position l x < length l)%nat.
Proof.
  induction l as [|y l IH]; [discriminate|].
  rewrite mem_cons. simpl. destruct (string_eqb y x); simpl; [lia|].
  intros H. apply IH in H. lia.
Qed.

(** [indexOf] on an array of strings, by membership and first position. *)
Lemma indexOf_strings (l : list jsstring) (x : jsstring) :
  indexOf (strings l) (VString x)
  = if mem x l then Z.of_nat (position l x) else -1.
Proof.
  induction l as [|y l IH]; [reflexivity|].
  rewrite mem_cons. cbn [strings map indexOf strict_equals position].
  destruct (string_eqb y x); [reflexivity|].
  cbn [orb]. fold (strings l). rewrite IH.
  destruct (mem x l).
  - destruct (Z.eqb_spec (Z.of_nat (position l x)) (-1)); lia.
  - reflexivity.
Qed.

Lemma indexOf_missing (l : list jsstring) (x : jsstring) :
  (indexOf (strings l) (VString x) =? -1) = negb (mem x l).
Proof.
  rewrite indexOf_strings. destruct (mem x l); [|reflexivity].
  simpl. apply Z.eqb_neq. lia.
Qed.

(** No array of strings holds a boolean. *)
Lemma indexOf_boolean (l : list jsstring) (b : bool) :
  indexOf (strings l) (VBoolean b) = -1.
Proof.
  induction l as [|y l IH]; [reflexivity|].
  cbn [strings map indexOf strict_equals]. fold (strings l).
  now rewrite IH.
Qed.

(** ** The priority tail *)

(** The second operand of the [&&] in the [reduce] callback is always
    truthy: the search is for a boolean, the answer is -1. *)
Lemma otherAttributeNames_step_eq
    (attributeNames res : list jsstring) (r : refinement) :
  otherAttributeNames_step attributeNames res r
  = if negb (mem (attributeName r) attributeNames)
    then res ++ [attributeName r] else res.
Proof.
  unfold otherAttributeNames_step.
  now rewrite indexOf_missing, indexOf_boolean, andb_true_r.
Qed.

Lemma otherAttributeNames_from
    (attributeNames : list jsstring) (raw : list refinement)
    (res : list jsstring) :
  fold_left (otherAttributeNames_step attributeNames) raw res
  = res ++ filter (fun a => negb (mem a attributeNames))
             (map attributeName raw).
Proof.
  revert res; induction raw as [|r raw IH]; intros res; simpl.
  - now rewrite app_nil_r.
  - rewrite IH, otherAttributeNames_step_eq.
    destruct (negb (mem (attributeName r) attributeNames)); [|reflexivity].
    now rewrite <- app_assoc.
Qed.

(** The tail the code builds: the attribute name of every unlisted raw
    refinement, one entry per refinement. *)
Lemma otherAttributeNames_filter
    (attributeNames : list jsstring) (raw : list refinement) :
  otherAttributeNames attributeNames raw
  = filter (fun a => negb (mem a attributeNames)) (map attributeName raw).
Proof. unfold otherAttributeNames. now rewrite otherAttributeNames_from. Qed.

Lemma otherNames_dedup
    (attributeNames : list jsstring) (raw : list refinement) :
  otherNames attributeNames raw
  = dedup (otherAttributeNames attributeNames raw).
Proof. unfold otherNames. now rewrite otherAttributeNames_filter. Qed.

Lemma mem_filter (p : jsstring -> bool) (l : list jsstring) (x : jsstring) :
  mem x (filter p l) = mem x l && p x.
Proof.
  induction l as [|y l IH]; [reflexivity|].
  simpl filter. destruct (p y) eqn:Py.
  - rewrite !mem_cons, IH.
    destruct (string_eqb y x) eqn:E; [|reflexivity].
    apply string_eqb_eq in E; subst. now rewrite Py.
  - rewrite mem_cons, IH.
    destruct (string_eqb y x) eqn:E; [|reflexivity].
    apply string_eqb_eq in E; subst. rewrite Py. now rewrite andb_false_r.
Qed.

(** Filtering keeps the relative order of the first positions of the names
    that pass the filter. *)
Lemma filter_position_compare (p : jsstring -> bool) (l : list jsstring)
    (x y : jsstring) :
  p x = true -> p y = true ->
  (position (filter p l) x ?= position (filter p l) y)%nat
  = (position l x ?= position l y)%nat.
Proof.
  intros Px Py. induction l as [|z l IH]; [reflexivity|].
  simpl. destruct (p z) eqn:Pz.
  - simpl. destruct (string_eqb z x), (string_eqb z y); try reflexivity.
    simpl. exact IH.
  - assert (Hx : string_eqb z x = false)
      by (apply string_eqb_neq; congruence).
    assert (Hy : string_eqb z y = false)
      by (apply string_eqb_neq; congruence).
    rewrite Hx, Hy. simpl. exact IH.
Qed.

Lemma mem_dedup (l : list jsstring) (x : jsstring) :
  mem x (dedup l) = mem x l.
Proof.
  induction l as [|y l IH]; [reflexivity|].
  simpl dedup. rewrite !mem_cons, mem_filter, IH.
  rewrite (string_eqb_sym x y).
  destruct (string_eqb y x); simpl; [reflexivity | apply andb_true_r].
Qed.

Lemma NoDup_filter_jsstring (p : jsstring -> bool) (l : list jsstring) :
  NoDup l -> NoDup (filter p l).
Proof.
  induction 1 as [|x l Hx Hl IH]; simpl; [constructor|].
  destruct (p x); [|assumption].
  constructor; [|assumption].
  intros H. apply filter_In in H. tauto.
Qed.

Lemma NoDup_dedup (l : list jsstring) : NoDup (dedup l).
Proof.
  induction l as [|x l IH]; simpl; constructor.
  - intros H. apply filter_In in H. destruct H as [_ H].
    now rewrite string_eqb_refl in H.
  - now apply NoDup_filter_jsstring.
Qed.

(** Dropping the later occurrences keeps the relative order of first
    positions. *)
Lemma dedup_position_compare (l : list jsstring) (x y : jsstring) :
  (position (dedup l) x ?= position (dedup l) y)%nat
  = (position l x ?= position l y)%nat.
Proof.
  induction l as [|z l IH]; [reflexivity|].
  simpl. destruct (string_eqb z x) eqn:Ex, (string_eqb z y) eqn:Ey;
    try reflexivity.
  simpl. rewrite filter_position_compare; [exact IH | |].
  - now rewrite string_eqb_sym, Ex.
  - now rewrite string_eqb_sym, Ey.
Qed.

(** ** Sorting *)

Section Sort.

Context {A : Type}.
Variable comparefn : A -> A -> Z.

Lemma insert_perm (x : A) (l : list A) :
  Permutation (insert comparefn x l) (x :: l).
Proof.
  induction l as [|y l IH]; simpl; [reflexivity|].
  destruct (comparefn x y >? 0); [|reflexivity].
  rewrite IH. apply perm_swap.
Qed.

Lemma sort_perm (l : list A) : Permutation (sort comparefn l) l.
Proof.
  induction l as [|x l IH]; simpl; [constructor|].
  rewrite insert_perm. now constructor.
Qed.

Lemma sort_In (l : list A) (x : A) : In x (sort comparefn l) <-> In x l.
Proof.
  split; apply Permutation_in;
    [apply sort_perm | symmetry; apply sort_perm].
Qed.

Hypothesis comparefn_consistent : consistent comparefn.

Lemma insert_sorted (x : A) (l : list A) :
  StronglySorted (not_after comparefn) l ->
  StronglySorted (not_after comparefn) (insert comparefn x l).
Proof.
  destruct comparefn_consistent as [Htotal Htrans].
  induction 1 as [|y l Hl IH Hy]; simpl.
  - repeat constructor.
  - destruct (Z.gtb_spec (comparefn x y) 0) as [Hgt|Hle].
    + constructor; [assumption|].
      eapply Permutation_Forall; [symmetry; apply insert_perm|].
      constructor; [apply Htotal; lia | assumption].
    + constructor; [now constructor|].
      constructor; [exact Hle|].
      eapply Forall_impl; [|exact Hy].
      intros z Hz. eapply Htrans; [exact Hle | exact Hz].
Qed.

Lemma sort_sorted (l : list A) :
  StronglySorted (not_after comparefn) (sort comparefn l).
Proof.
  induction l as [|x l IH]; simpl; [constructor | now apply insert_sorted].
Qed.

End Sort.

(** The result of [sort] depends on the comparator through its answers
    only. *)
Lemma sort_ext {A : Type} (f g : A -> A -> Z) (l : list A) :
  (forall a b, f a b = g a b) -> sort f l = sort g l.
Proof.
  intros E. induction l as [|x l IH]; simpl; [reflexivity|].
  rewrite IH. generalize (sort g l) as s.
  induction s as [|y s IHs]; simpl; [reflexivity|].
  now rewrite E, IHs.
Qed.

Lemma StronglySorted_filter {A : Type} (R : A -> A -> Prop)
    (p : A -> bool) (l : list A) :
  StronglySorted R l -> StronglySorted R (filter p l).
Proof.
  induction 1 as [|x l Hl IH Hx]; simpl; [constructor|].
  destruct (p x); [|assumption].
  constructor; [assumption|].
  rewrite Forall_forall in *. intros y Hy. apply Hx.
  apply filter_In in Hy. tauto.
Qed.

Lemma StronglySorted_map {A B : Type} (R : B -> B -> Prop) (f : A -> B)
    (l : list A) :
  StronglySorted (fun a b => R (f a) (f b)) l -> StronglySorted R (map f l).
Proof.
  induction 1 as [|x l Hl IH Hx]; simpl; constructor; [assumption|].
  now apply Forall_map.
Qed.

(** A sorted list stays sorted under a weaker relation, which may rely on a
    property of the elements. *)
Lemma StronglySorted_weaken {A : Type} (R R' : A -> A -> Prop)
    (P : A -> Prop) (l : list A) :
  (forall a b, P a -> P b -> R a b -> R' a b) ->
  Forall P l -> StronglySorted R l -> StronglySorted R' l.
Proof.
  intros W HP HS. induction HS as [|x l Hl IH Hx]; constructor.
  - apply IH. now inversion HP.
  - inversion HP as [|? ? Px Pl]; subst.
    rewrite Forall_forall in *. intros y Hy. apply W; auto.
Qed.

(** ** The comparator *)

Section Comparator.

Variables attributeNames otherAttributeNames : list jsstring.

Let key (r : refinement) : Z :=
  getRestrictedIndexForSort attributeNames otherAttributeNames
    (attributeName r).

Lemma key_listed (x : jsstring) :
  mem x attributeNames = true ->
  getRestrictedIndexForSort attributeNames otherAttributeNames x
  = Z.of_nat (position attributeNames x).
Proof.
  intros H. unfold getRestrictedIndexForSort.
  now rewrite indexOf_missing, indexOf_strings, H.
Qed.

Lemma key_unlisted (x : jsstring) :
  mem x attributeNames = false ->
  getRestrictedIndexForSort attributeNames otherAttributeNames x
  = Z.of_nat (length attributeNames)
    + (if mem x otherAttributeNames
       then Z.of_nat (position otherAttributeNames x) else -1).
Proof.
  intros H. unfold getRestrictedIndexForSort.
  cbv zeta. rewrite indexOf_missing, H. cbn [negb].
  now rewrite (indexOf_strings otherAttributeNames).
Qed.

(** The comparator is the lexicographic comparison of the pair made of the
    priority index and the name. *)
Lemma compareRefinements_not_after (a b : refinement) :
  compareRefinements attributeNames otherAttributeNames a b <= 0
  <-> key a < key b
      \/ (key a = key b
          /\ (name a = name b \/ string_ltb (name a) (name b) = true)).
Proof.
  unfold compareRefinements. fold (key a) (key b).
  destruct (Z.eqb_spec (key a) (key b)) as [E|N].
  - destruct (string_eqb (name a) (name b)) eqn:En.
    + apply string_eqb_eq in En. intuition lia.
    + apply string_eqb_neq in En.
      destruct (string_ltb (name a) (name b)); split; intros H;
        try lia; intuition (try lia; try congruence).
  - destruct (Z.ltb_spec (key a) (key b)); intuition lia.
Qed.

Lemma compareRefinements_consistent :
  consistent (compareRefinements attributeNames otherAttributeNames).
Proof.
  split.
  - intros a b H. apply compareRefinements_not_after.
    assert (N : ~ compareRefinements attributeNames otherAttributeNames a b
                  <= 0) by lia.
    rewrite compareRefinements_not_after in N.
    destruct (Z.lt_trichotomy (key a) (key b)) as [L|[E|G]];
      [tauto | | left; lia].
    right. split; [lia|].
    destruct (string_eqb (name a) (name b)) eqn:En.
    + apply string_eqb_eq in En. tauto.
    + destruct (string_ltb (name a) (name b)) eqn:El; [tauto|].
      right. now apply string_ltb_total.
  - intros a b c. rewrite !compareRefinements_not_after.
    intros [L1|[E1 N1]] [L2|[E2 N2]]; try (left; lia).
    right. split; [lia|].
    destruct N1 as [N1|N1], N2 as [N2|N2]; try (left; congruence).
    + right. now rewrite N1.
    + right. now rewrite <- N2.
    + right. eapply string_ltb_trans; eassumption.
Qed.

End Comparator.

(** ** Labels *)

Lemma computeLabel_label_of (r : refinement) :
  computeLabel r = set_computedLabel r (label_of (name r) (operator r)).
Proof.
  unfold computeLabel, label_of, hasOwnProperty_operator, get_operator.
  destruct r as [t a n o v c l]; cbn [operator name set_computedLabel].
  destruct o as [[| |b|z|op|ref]|]; try reflexivity.
  cbn [typeof strict_equals andb]. rewrite string_eqb_refl.
  unfold set_computedLabel; cbn [type attributeName name operator
    numericValue count].
  destruct (string_eqb op (js ">=")) eqn:Ege.
  - apply string_eqb_eq in Ege; subst. reflexivity.
  - destruct (string_eqb op (js "<=")); reflexivity.
Qed.

Lemma type_computeLabel (r : refinement) : type (computeLabel r) = type r.
Proof. now rewrite computeLabel_label_of. Qed.

Lemma attributeName_computeLabel (r : refinement) :
  attributeName (computeLabel r) = attributeName r.
Proof. now rewrite computeLabel_label_of. Qed.

Lemma name_computeLabel (r : refinement) : name (computeLabel r) = name r.
Proof. now rewrite computeLabel_label_of. Qed.

Lemma operator_computeLabel (r : refinement) :
  operator (computeLabel r) = operator r.
Proof. now rewrite computeLabel_label_of. Qed.

Lemma numericValue_computeLabel (r : refinement) :
  numericValue (computeLabel r) = numericValue r.
Proof. now rewrite computeLabel_label_of. Qed.

Lemma computedLabel_computeLabel (r : refinement) :
  computedLabel (computeLabel r) = Some (label_of (name r) (operator r)).
Proof. now rewrite computeLabel_label_of. Qed.

(** ** The extractor *)

Section Extraction.

Context {Results State : Type}.
Context {utils : Utils Results State}.

Variables (results : Results) (state : State).
Variable attributeNames : list jsstring.

Let raw : list refinement := getRefinements results state.
Let sorted : list refinement :=
  sort (compareRefinements attributeNames
          (otherAttributeNames attributeNames raw)) raw.

(** The steps of [getFilteredRefinements], with the filter read as
    membership in the declared list. *)
Lemma getFilteredRefinements_steps (onlyListedAttributes : bool) :
  getFilteredRefinements results state attributeNames onlyListedAttributes
  = map computeLabel
      (if onlyListedAttributes && negb (isEmpty attributeNames)
       then filter (is_listed attributeNames) sorted
       else sorted).
Proof.
  unfold getFilteredRefinements. fold raw. fold sorted.
  destruct (onlyListedAttributes && negb (isEmpty attributeNames));
    [|reflexivity].
  f_equal. apply filter_ext. intros r.
  rewrite indexOf_missing. apply negb_involutive.
Qed.

(** Every record of the output is the labelled copy of a raw refinement. *)
Lemma getFilteredRefinements_In (onlyListedAttributes : bool)
    (R : refinement) :
  In R (getFilteredRefinements results state attributeNames
          onlyListedAttributes) ->
  exists r, In r raw /\ R = computeLabel r.
Proof.
  rewrite getFilteredRefinements_steps, in_map_iff.
  intros (r & <- & Hr). exists r. split; [|reflexivity].
  apply (sort_In (compareRefinements attributeNames
                    (otherAttributeNames attributeNames raw))).
  fold sorted.
  destruct (onlyListedAttributes && negb (isEmpty attributeNames));
    [apply filter_In in Hr; tauto | assumption].
Qed.

(** On raw refinements, what the comparator allows is what the Ordering
    Key allows. *)
Lemma not_after_ordering_key (a b : refinement) :
  In a raw -> In b raw ->
  not_after (compareRefinements attributeNames
               (otherAttributeNames attributeNames raw)) a b ->
  ordering_key_le attributeNames raw (computeLabel a) (computeLabel b).
Proof.
  intros Ha Hb H. unfold not_after in H.
  apply compareRefinements_not_after in H.
  set (other := otherAttributeNames attributeNames raw) in *.
  assert (Hother : forall r, In r raw ->
            mem (attributeName r) attributeNames = false ->
            mem (attributeName r) other = true).
  { intros r Hr Hm. unfold other.
    rewrite otherAttributeNames_filter, mem_filter, Hm, andb_true_r.
    apply mem_In. now apply in_map. }
  assert (Hlt : forall x, mem x attributeNames = true ->
            (position attributeNames x < length attributeNames)%nat)
    by apply position_bound.
  split; rewrite !attributeName_computeLabel, ?name_computeLabel.
  - (* listed before unlisted *)
    intros Lb. apply mem_In in Lb. apply mem_In.
    destruct (mem (attributeName a) attributeNames) eqn:La; [reflexivity|].
    exfalso. specialize (Hlt _ Lb).
    rewrite (key_listed _ _ _ Lb), (key_unlisted _ _ _ La),
      (Hother _ Ha La) in H.
    lia.
  - (* declared order *)
    intros La Lb. apply mem_In in La, Lb.
    rewrite (key_listed _ _ _ La), (key_listed _ _ _ Lb) in H. lia.
  - (* first-seen order *)
    intros La Lb. apply mem_not_In in La, Lb.
    rewrite (key_unlisted _ _ _ La), (key_unlisted _ _ _ Lb),
      (Hother _ Ha La), (Hother _ Hb Lb) in H.
    unfold first_seen. apply Nat.compare_le_iff.
    rewrite <- (filter_position_compare
                  (fun x => negb (mem x attributeNames)));
      [| now rewrite La | now rewrite Lb].
    rewrite <- otherAttributeNames_filter. fold other.
    apply Nat.compare_le_iff. lia.
  - (* names within one attribute *)
    intros E. rewrite E in H.
    destruct H as [H|[_ [H|H]]]; [lia | now left |].
    right. now apply string_ltb_lex.
Qed.

(** Any arrangement of raw refinements that the comparator accepts as
    sorted is, once labelled, sorted by the Ordering Key: this does not
    depend on how the engine sorts. *)
Lemma comparator_sorted_ordering_key (l : list refinement) :
  Forall (fun r => In r raw) l ->
  StronglySorted
    (not_after (compareRefinements attributeNames
                  (otherAttributeNames attributeNames raw))) l ->
  StronglySorted (ordering_key_le attributeNames raw) (map computeLabel l).
Proof.
  intros M S. apply StronglySorted_map.
  revert M S. apply StronglySorted_weaken, not_after_ordering_key.
Qed.

(** C1. Whatever the raw refinements, the declared attribute names and the
    flag, the list [getFilteredRefinements] returns is sorted by the
    Ordering Key: of any two records, the earlier one is listed whenever the
    later one is, stands no later in the declared list when both are listed,
    has an attribute seen no later among the raw refinements when both are
    unlisted, and has the lexicographically smaller or equal name when both
    carry the same attribute. *)
Theorem extract_sorted_by_ordering_key (onlyListedAttributes : bool) :
  StronglySorted (ordering_key_le attributeNames raw)
    (getFilteredRefinements results state attributeNames
       onlyListedAttributes).
Proof.
  rewrite getFilteredRefinements_steps.
  assert (S : StronglySorted
                (not_after (compareRefinements attributeNames
                              (otherAttributeNames attributeNames raw)))
                sorted)
    by (apply sort_sorted, compareRefinements_consistent).
  assert (M : Forall (fun r => In r raw) sorted)
    by (apply Forall_forall; intros r; apply sort_In).
  apply comparator_sorted_ordering_key.
  - destruct (onlyListedAttributes && negb (isEmpty attributeNames));
      [|exact M].
    rewrite Forall_forall in *. intros r Hr. apply M.
    apply filter_In in Hr. tauto.
  - destruct (onlyListedAttributes && negb (isEmpty attributeNames));
      [now apply StronglySorted_filter | exact S].
Qed.

End Extraction.

Lemma Permutation_filter_compat {A : Type} (p : A -> bool) (l l' : list A) :
  Permutation l l' -> Permutation (filter p l) (filter p l').
Proof.
  induction 1 as [|x l l' H IH|x y l|l l' l'' H1 IH1 H2 IH2]; simpl.
  - constructor.
  - destruct (p x); [now constructor | assumption].
  - destruct (p x), (p y); try reflexivity. apply perm_swap.
  - now transitivity (filter p l').
Qed.

Lemma is_listed_In (attributeNames : list jsstring) (r : refinement) :
  is_listed attributeNames r = true <-> In (attributeName r) attributeNames.
Proof. apply mem_In. Qed.

Section Filtering.

Context {Results State : Type}.
Context {utils : Utils Results State}.

(** C4. With [onlyListedAttributes] set and a non-empty declared list, the
    output holds the labelled copies of exactly the raw refinements whose
    attribute name is declared, each as often as it occurs, and no record
    with an undeclared attribute name; with an empty declared list the
    output holds the labelled copy of every raw refinement, whatever the
    flag. *)
Theorem extract_filters_listed_attributes
    (results : Results) (state : State) (attributeNames : list jsstring)
    (onlyListedAttributes : bool) :
  (onlyListedAttributes = true -> attributeNames <> [] ->
   Permutation
     (getFilteredRefinements results state attributeNames
        onlyListedAttributes)
     (map computeLabel
        (filter (is_listed attributeNames) (getRefinements results state)))
   /\ Forall (fun R => In (attributeName R) attributeNames)
        (getFilteredRefinements results state attributeNames
           onlyListedAttributes))
  /\ (attributeNames = [] ->
      Permutation
        (getFilteredRefinements results state attributeNames
           onlyListedAttributes)
        (map computeLabel (getRefinements results state))).
Proof.
  rewrite getFilteredRefinements_steps. split.
  - intros -> Hne.
    destruct attributeNames as [|a names]; [congruence|].
    cbn [andb isEmpty negb]. split.
    + apply Permutation_map, Permutation_filter_compat, sort_perm.
    + apply Forall_forall. intros R HR.
      apply in_map_iff in HR. destruct HR as (r & <- & Hr).
      rewrite attributeName_computeLabel.
      apply filter_In in Hr. now apply is_listed_In.
  - intros ->. cbn [isEmpty negb]. rewrite andb_false_r.
    apply Permutation_map, sort_perm.
Qed.

End Filtering.

(** ** The labeler *)

Lemma label_with_operator_differs (prefix name : jsstring) :
  prefix ++ js " " ++ name <> name.
Proof.
  intros E. apply (f_equal (@length _)) in E.
  rewrite !length_app in E. simpl in E. lia.
Qed.

Section Labelling.

Context {Results State : Type}.
Context {utils : Utils Results State}.

(** C5. [computeLabel] sets [computedLabel] to the name when the record has
    no operator, to the sign U+2265 (resp. U+2264), a space and the name
    when the operator is the string ">=" (resp. "<="), and to the operator,
    a space and the name for any other operator string.  Every record of an
    extraction has a [computedLabel], and two extracted records with the same
    [name] and [operator] have the same one. *)
Theorem computeLabel_by_operator :
  (forall r,
     (operator r = None -> computedLabel (computeLabel r) = Some (name r))
     /\ (operator r = Some (VString (js ">=")) ->
         computedLabel (computeLabel r)
         = Some (greater_or_equal_sign ++ js " " ++ name r))
     /\ (operator r = Some (VString (js "<=")) ->
         computedLabel (computeLabel r)
         = Some (less_or_equal_sign ++ js " " ++ name r))
     /\ (forall op,
           operator r = Some (VString op) ->
           op <> js ">=" -> op <> js "<=" ->
           computedLabel (computeLabel r) = Some (op ++ js " " ++ name r)))
  /\ (forall (results results' : Results) (state state' : State)
        attributeNames attributeNames' onlyListed onlyListed' R R',
        In R (getFilteredRefinements results state attributeNames
                onlyListed) ->
        In R' (getFilteredRefinements results' state' attributeNames'
                 onlyListed') ->
        computedLabel R <> None
        /\ (name R = name R' -> operator R = operator R' ->
            computedLabel R = computedLabel R')).
Proof.
  split.
  - intros r. rewrite computedLabel_computeLabel. repeat split.
    + now intros ->.
    + now intros ->.
    + now intros ->.
    + intros op -> Hge Hle. cbn [label_of].
      apply string_eqb_neq in Hge, Hle. now rewrite Hge, Hle.
  - intros results results' state state' names names' flag flag' R R' HR HR'.
    apply getFilteredRefinements_In in HR, HR'.
    destruct HR as (r & _ & ->), HR' as (r' & _ & ->).
    rewrite !computedLabel_computeLabel, !name_computeLabel,
      !operator_computeLabel.
    split; [discriminate | now intros -> ->].
Qed.

End Labelling.

(** C10. When the [operator] field is present and holds a value that is not
    a string, [computeLabel] sets [computedLabel] to the bare name, the label
    the same record gets once its [operator] field is deleted; the label
    differs from the bare name exactly when [operator] holds a string. *)
Theorem computeLabel_operator_not_a_string (r : refinement) :
  (forall v,
     operator r = Some v -> (forall s, v <> VString s) ->
     computedLabel (computeLabel r) = Some (name r)
     /\ computedLabel (computeLabel r)
        = computedLabel (computeLabel (delete_operator r)))
  /\ (computedLabel (computeLabel r) <> Some (name r)
      <-> exists s, operator r = Some (VString s)).
Proof.
  rewrite !computedLabel_computeLabel. split.
  - intros v Hop Hv. rewrite Hop. cbn [delete_operator name operator].
    destruct v; try (split; reflexivity). now destruct (Hv s).
  - split.
    + destruct (operator r) as [[| |b|z|s|ref]|]; cbn [label_of];
        try congruence.
      intros _. now exists s.
    + intros (s & ->). cbn [label_of]. intros [= E].
      now apply label_with_operator_differs in E.
Qed.

(** ** The clearer *)

Section Clearing.

Context {State : Type}.
Context {params : SearchParameters State}.

Lemma clear_facet (state : State) (r : refinement) :
  type r = js "facet" ->
  clearRefinementFromState state r
  = Normal (removeFacetRefinement state (attributeName r) (name r)).
Proof. unfold clearRefinementFromState. now intros ->. Qed.

Lemma clear_disjunctive (state : State) (r : refinement) :
  type r = js "disjunctive" ->
  clearRefinementFromState state r
  = Normal (removeDisjunctiveFacetRefinement state
              (attributeName r) (name r)).
Proof. unfold clearRefinementFromState. now intros ->. Qed.

Lemma clear_hierarchical (state : State) (r : refinement) :
  type r = js "hierarchical" ->
  clearRefinementFromState state r
  = Normal (clearRefinements state (attributeName r)).
Proof. unfold clearRefinementFromState. now intros ->. Qed.

Lemma clear_exclude (state : State) (r : refinement) :
  type r = js "exclude" ->
  clearRefinementFromState state r
  = Normal (removeExcludeRefinement state (attributeName r) (name r)).
Proof. unfold clearRefinementFromState. now intros ->. Qed.

Lemma clear_numeric (state : State) (r : refinement) :
  type r = js "numeric" ->
  clearRefinementFromState state r
  = Normal (removeNumericRefinement state (attributeName r)
              (get_operator r) (get_numericValue r)).
Proof. unfold clearRefinementFromState. now intros ->. Qed.

Lemma clear_tag (state : State) (r : refinement) :
  type r = js "tag" ->
  clearRefinementFromState state r
  = Normal (removeTagRefinement state (name r)).
Proof. unfold clearRefinementFromState. now intros ->. Qed.

(** C2. For a record of one of the six kinds, [clearRefinementFromState]
    returns the result of the mutator of that kind: the facet, disjunctive
    and exclude mutators get the attribute name and the name, hierarchical
    clears the whole attribute, numeric gets the attribute name, the operator
    and the numeric value, tag gets the name alone. *)
Theorem clearRefinementFromState_dispatch (state : State) (r : refinement) :
  (type r = js "facet" ->
   clearRefinementFromState state r
   = Normal (removeFacetRefinement state (attributeName r) (name r)))
  /\ (type r = js "disjunctive" ->
      clearRefinementFromState state r
      = Normal (removeDisjunctiveFacetRefinement state
                  (attributeName r) (name r)))
  /\ (type r = js "hierarchical" ->
      clearRefinementFromState state r
      = Normal (clearRefinements state (attributeName r)))
  /\ (type r = js "exclude" ->
      clearRefinementFromState state r
      = Normal (removeExcludeRefinement state (attributeName r) (name r)))
  /\ (type r = js "numeric" ->
      clearRefinementFromState state r
      = Normal (removeNumericRefinement state (attributeName r)
                  (get_operator r) (get_numericValue r)))
  /\ (type r = js "tag" ->
      clearRefinementFromState state r
      = Normal (removeTagRefinement state (name r))).
Proof.
  repeat split;
    [apply clear_facet | apply clear_disjunctive | apply clear_hierarchical
    | apply clear_exclude | apply clear_numeric | apply clear_tag].
Qed.

Lemma recognized_types_eqb (t : jsstring) :
  ~ In t recognized_types <->
  string_eqb t (js "facet") = false
  /\ string_eqb t (js "disjunctive") = false
  /\ string_eqb t (js "hierarchical") = false
  /\ string_eqb t (js "exclude") = false
  /\ string_eqb t (js "numeric") = false
  /\ string_eqb t (js "tag") = false.
Proof.
  rewrite !string_eqb_neq. unfold recognized_types. simpl.
  intuition congruence.
Qed.

(** C3. For a record whose [type] is none of the six kinds,
    [clearRefinementFromState] throws and returns no state; it throws for
    these types only. *)
Theorem clearRefinementFromState_unrecognized
    (state : State) (r : refinement) :
  (~ In (type r) recognized_types ->
   clearRefinementFromState state r
   = Throw (js "clearRefinement: type " ++ type r ++ js " is not handled"))
  /\ ((exists message, clearRefinementFromState state r = Throw message)
      <-> ~ In (type r) recognized_types).
Proof.
  assert (T : ~ In (type r) recognized_types ->
              clearRefinementFromState state r
              = Throw (js "clearRefinement: type " ++ type r
                       ++ js " is not handled")).
  { intros H. apply recognized_types_eqb in H.
    destruct H as (H1 & H2 & H3 & H4 & H5 & H6).
    unfold clearRefinementFromState.
    now rewrite H1, H2, H3, H4, H5, H6. }
  split; [exact T|]. split.
  - intros [message E] H. revert E.
    unfold recognized_types in H. simpl in H.
    destruct H as [H|[H|[H|[H|[H|[H|[]]]]]]]; symmetry in H;
      [rewrite (clear_facet _ _ H) | rewrite (clear_disjunctive _ _ H)
      | rewrite (clear_hierarchical _ _ H) | rewrite (clear_exclude _ _ H)
      | rewrite (clear_numeric _ _ H) | rewrite (clear_tag _ _ H)];
      discriminate.
  - intros H. eexists. now apply T.
Qed.

End Clearing.

(** ** Duplicates in the priority tail *)

(** C6, on the code as it is: two raw refinements of the one undeclared
    attribute [color] put [color] twice in the tail that
    [getFilteredRefinements] builds, where the deduplicated tail holds it
    once. *)
Theorem otherAttributeNames_repeats_attribute :
  otherAttributeNames [] [Sample.color_red; Sample.color_blue]
  = [js "color"; js "color"]
  /\ ~ NoDup (otherAttributeNames [] [Sample.color_red; Sample.color_blue])
  /\ otherNames [] [Sample.color_red; Sample.color_blue] = [js "color"].
Proof.
  split; [reflexivity|]. split; [|reflexivity].
  change (otherAttributeNames [] [Sample.color_red; Sample.color_blue])
    with [js "color"; js "color"].
  intros H. inversion H as [|x l Hn _]; subst. apply Hn. now left.
Qed.

Section Tail.

Variables attributeNames other : list jsstring.

(** With the deduplicated tail the priority indices may shrink, but any two
    of them compare as before. *)
Lemma getRestrictedIndexForSort_dedup (x y : jsstring) :
  let k := getRestrictedIndexForSort attributeNames other in
  let k' := getRestrictedIndexForSort attributeNames (dedup other) in
  (k x < k y <-> k' x < k' y) /\ (k x = k y <-> k' x = k' y).
Proof.
  cbv zeta.
  pose proof (dedup_position_compare other x y) as C.
  assert (Clt : (position (dedup other) x < position (dedup other) y
                 <-> position other x < position other y)%nat)
    by (rewrite <- !Nat.compare_lt_iff; now rewrite C).
  assert (Ceq : (position (dedup other) x = position (dedup other) y
                 <-> position other x = position other y)%nat)
    by (rewrite <- !Nat.compare_eq_iff; now rewrite C).
  destruct (mem x attributeNames) eqn:Lx, (mem y attributeNames) eqn:Ly.
  - rewrite !(key_listed _ _ _ Lx), !(key_listed _ _ _ Ly). tauto.
  - rewrite !(key_listed _ _ _ Lx), !(key_unlisted _ _ _ Ly), mem_dedup.
    pose proof (position_bound _ _ Lx).
    destruct (mem y other); lia.
  - rewrite !(key_unlisted _ _ _ Lx), !(key_listed _ _ _ Ly), mem_dedup.
    pose proof (position_bound _ _ Ly).
    destruct (mem x other); lia.
  - rewrite !(key_unlisted _ _ _ Lx), !(key_unlisted _ _ _ Ly), !mem_dedup.
    destruct (mem x other), (mem y other); lia.
Qed.

Lemma compareRefinements_dedup (a b : refinement) :
  compareRefinements attributeNames other a b
  = compareRefinements attributeNames (dedup other) a b.
Proof.
  unfold compareRefinements.
  destruct (getRestrictedIndexForSort_dedup (attributeName a)
              (attributeName b)) as [Hlt Heq].
  cbv zeta in Hlt, Heq.
  repeat match goal with
         | |- context [Z.eqb ?u ?v] => destruct (Z.eqb_spec u v)
         | |- context [Z.ltb ?u ?v] => destruct (Z.ltb_spec u v)
         end; try reflexivity; lia || tauto.
Qed.

End Tail.

Section TailRefinement.

Context {Results State : Type}.
Context {utils : Utils Results State}.

(** C9. The comparator answers the same on every pair of records whether it
    is given the tail [getFilteredRefinements] builds, duplicates included,
    or the deduplicated first-occurrence tail, and the extractor returns the
    same list with either tail. *)
Theorem extract_same_with_deduplicated_tail
    (results : Results) (state : State) (attributeNames : list jsstring)
    (onlyListedAttributes : bool) :
  (forall a b,
     compareRefinements attributeNames
       (otherAttributeNames attributeNames (getRefinements results state))
       a b
     = compareRefinements attributeNames
         (otherNames attributeNames (getRefinements results state)) a b)
  /\ getFilteredRefinements results state attributeNames
       onlyListedAttributes
     = getFilteredRefinements_otherNames results state attributeNames
         onlyListedAttributes.
Proof.
  assert (E : forall a b,
     compareRefinements attributeNames
       (otherAttributeNames attributeNames (getRefinements results state))
       a b
     = compareRefinements attributeNames
         (otherNames attributeNames (getRefinements results state)) a b).
  { intros a b. rewrite otherNames_dedup. apply compareRefinements_dedup. }
  split; [exact E|].
  rewrite getFilteredRefinements_steps.
  unfold getFilteredRefinements_otherNames.
  now rewrite (sort_ext _ _ _ E).
Qed.

End TailRefinement.

(** ** Clearing on the model of the search state *)

Module ModelFacts.
Import Model.

Lemma In_without {B : Type} (p : B -> bool) (l : list B) (e : B) :
  In e (without p l) <-> In e l /\ p e = false.
Proof.
  unfold without. rewrite filter_In, negb_true_iff. tauto.
Qed.

Lemma without_idempotent {B : Type} (p : B -> bool) (l : list B) :
  without p (without p l) = without p l.
Proof.
  unfold without. induction l as [|e l IH]; [reflexivity|].
  simpl. destruct (p e) eqn:E; simpl; [assumption|].
  now rewrite E, IH.
Qed.

(** Where a raw refinement of the model comes from. *)
Lemma model_getRefinements_In (results : Results) (s : QueryState)
    (r : refinement) :
  In r (model_getRefinements results s) <->
  (exists e, In e (facetsRefinements s)
             /\ r = facet_record results (js "facet") e)
  \/ (exists e, In e (facetsExcludes s)
                /\ r = facet_record results (js "exclude") e)
  \/ (exists e, In e (disjunctiveFacetsRefinements s)
                /\ r = facet_record results (js "disjunctive") e)
  \/ (exists e, In e (hierarchicalFacetsRefinements s)
                /\ r = facet_record results (js "hierarchical") e)
  \/ (exists e, In e (numericRefinements s) /\ r = numeric_record e)
  \/ (exists t, In t (tagRefinements s) /\ r = tag_record t).
Proof.
  unfold model_getRefinements. rewrite !in_app_iff, !in_map_iff.
  split; intros H;
    repeat (destruct H as [(e & H1 & H2)|H]; [eauto 10|]);
    destruct H as (e & H1 & H2); eauto 10.
Qed.

(** Two distinct kind names are told apart by evaluation. *)
Ltac kind_mismatch :=
  match goal with
  | H : js _ = js _ |- _ => vm_compute in H; discriminate H
  end.

Ltac model_kind T :=
  cbn [type facet_record numeric_record tag_record] in T.

Ltac model_source H :=
  apply model_getRefinements_In in H;
  destruct H as [(?e & ?Hin & ->)|[(?e & ?Hin & ->)|[(?e & ?Hin & ->)
                |[(?e & ?Hin & ->)|[(?e & ?Hin & ->)|(?e & ?Hin & ->)]]]]].

Lemma raw_facet (results : Results) (s : QueryState) (r : refinement) :
  In r (model_getRefinements results s) -> type r = js "facet" ->
  In (attributeName r, name r) (facetsRefinements s).
Proof.
  intros H T. model_source H; model_kind T; try kind_mismatch.
  cbn. now rewrite <- surjective_pairing.
Qed.

Lemma raw_exclude (results : Results) (s : QueryState) (r : refinement) :
  In r (model_getRefinements results s) -> type r = js "exclude" ->
  In (attributeName r, name r) (facetsExcludes s).
Proof.
  intros H T. model_source H; model_kind T; try kind_mismatch.
  cbn. now rewrite <- surjective_pairing.
Qed.

Lemma raw_disjunctive (results : Results) (s : QueryState) (r : refinement) :
  In r (model_getRefinements results s) -> type r = js "disjunctive" ->
  In (attributeName r, name r) (disjunctiveFacetsRefinements s).
Proof.
  intros H T. model_source H; model_kind T; try kind_mismatch.
  cbn. now rewrite <- surjective_pairing.
Qed.

Lemma raw_hierarchical (results : Results) (s : QueryState) (r : refinement) :
  In r (model_getRefinements results s) -> type r = js "hierarchical" ->
  In (attributeName r, name r) (hierarchicalFacetsRefinements s).
Proof.
  intros H T. model_source H; model_kind T; try kind_mismatch.
  cbn. now rewrite <- surjective_pairing.
Qed.

Lemma raw_numeric (results : Results) (s : QueryState) (r : refinement) :
  In r (model_getRefinements results s) -> type r = js "numeric" ->
  exists op v,
    operator r = Some (VString op) /\ numericValue r = Some v
    /\ In (attributeName r, (op, v)) (numericRefinements s).
Proof.
  intros H T. model_source H; model_kind T; try kind_mismatch.
  exists (fst (snd e)), (snd (snd e)). cbn.
  now rewrite <- !surjective_pairing.
Qed.

Lemma raw_tag (results : Results) (s : QueryState) (r : refinement) :
  In r (model_getRefinements results s) -> type r = js "tag" ->
  In (name r) (tagRefinements s).
Proof.
  intros H T. model_source H; model_kind T; try kind_mismatch.
  assumption.
Qed.

Lemma pair_is_refl (a v : jsstring) : pair_is a v (a, v) = true.
Proof. unfold pair_is. cbn. now rewrite !string_eqb_refl. Qed.

Lemma attribute_is_fst {B : Type} (a : jsstring) (b : B) :
  attribute_is a (a, b) = true.
Proof. unfold attribute_is. cbn. apply string_eqb_refl. Qed.

Lemma numeric_is_refl (a op : jsstring) (v : Z) :
  numeric_is a (VString op) (VNumber v) (a, (op, v)) = true.
Proof.
  unfold numeric_is. cbn. now rewrite !string_eqb_refl, Z.eqb_refl.
Qed.

(** What labelling leaves untouched identifies the refinement. *)
Lemma computeLabel_eq_fields (r r' : refinement) :
  computeLabel r = computeLabel r' ->
  type r' = type r /\ attributeName r' = attributeName r
  /\ name r' = name r /\ operator r' = operator r
  /\ numericValue r' = numericValue r.
Proof.
  intros E.
  pose proof (f_equal type E) as Et.
  pose proof (f_equal attributeName E) as Ea.
  pose proof (f_equal name E) as En.
  pose proof (f_equal operator E) as Eo.
  pose proof (f_equal numericValue E) as Ev.
  rewrite !type_computeLabel in Et.
  rewrite !attributeName_computeLabel in Ea.
  rewrite !name_computeLabel in En.
  rewrite !operator_computeLabel in Eo.
  rewrite !numericValue_computeLabel in Ev.
  repeat split; congruence.
Qed.

(** A record of a second extraction that equals the labelled copy of [r]:
    back to the raw refinement [r'] it is the copy of. *)
Ltac extracted_again H r' :=
  apply getFilteredRefinements_In in H;
  let E := fresh "E" in
  destruct H as (r' & H & E);
  apply computeLabel_eq_fields in E;
  destruct E as (?Et & ?Ea & ?En & ?Eo & ?Ev);
  cbn [getRefinements model_utils] in H.

(** C7. On the model of the search state: for a record [R] of an
    extraction of [S], [clearRefinementFromState S R] returns a state, and no
    extraction of that state, whatever the results, the declared names and
    the flag, holds [R]. *)
Theorem cleared_refinement_not_extracted_again
    (results results' : Results) (S : QueryState)
    (attributeNames attributeNames' : list jsstring)
    (onlyListed onlyListed' : bool) (R : refinement) :
  In R (getFilteredRefinements results S attributeNames onlyListed) ->
  exists S',
    clearRefinementFromState S R = Normal S'
    /\ ~ In R (getFilteredRefinements results' S' attributeNames'
                 onlyListed').
Proof.
  intros HR. apply getFilteredRefinements_In in HR.
  destruct HR as (r & Hr & ->).
  cbn [getRefinements model_utils] in Hr.
  model_source Hr.
  - (* facet *)
    eexists. split; [apply clear_facet; now rewrite type_computeLabel|].
    intros HR'. extracted_again HR' r'.
    apply raw_facet in HR'; [|assumption].
    cbn [removeFacetRefinement model_params facetsRefinements
         model_removeFacetRefinement] in HR'.
    apply In_without in HR'. destruct HR' as [_ HR'].
    rewrite attributeName_computeLabel, name_computeLabel, Ea, En,
      pair_is_refl in HR'.
    discriminate.
  - (* exclude *)
    eexists. split; [apply clear_exclude; now rewrite type_computeLabel|].
    intros HR'. extracted_again HR' r'.
    apply raw_exclude in HR'; [|assumption].
    cbn [removeExcludeRefinement model_params facetsExcludes
         model_removeExcludeRefinement] in HR'.
    apply In_without in HR'. destruct HR' as [_ HR'].
    rewrite attributeName_computeLabel, name_computeLabel, Ea, En,
      pair_is_refl in HR'.
    discriminate.
  - (* disjunctive *)
    eexists. split;
      [apply clear_disjunctive; now rewrite type_computeLabel|].
    intros HR'. extracted_again HR' r'.
    apply raw_disjunctive in HR'; [|assumption].
    cbn [removeDisjunctiveFacetRefinement model_params
         disjunctiveFacetsRefinements
         model_removeDisjunctiveFacetRefinement] in HR'.
    apply In_without in HR'. destruct HR' as [_ HR'].
    rewrite attributeName_computeLabel, name_computeLabel, Ea, En,
      pair_is_refl in HR'.
    discriminate.
  - (* hierarchical: the whole attribute is cleared *)
    eexists. split;
      [apply clear_hierarchical; now rewrite type_computeLabel|].
    intros HR'. extracted_again HR' r'.
    apply raw_hierarchical in HR'; [|assumption].
    cbn [clearRefinements model_params hierarchicalFacetsRefinements
         model_clearRefinements] in HR'.
    apply In_without in HR'. destruct HR' as [_ HR'].
    rewrite attributeName_computeLabel, Ea, attribute_is_fst in HR'.
    discriminate.
  - (* numeric *)
    eexists. split; [apply clear_numeric; now rewrite type_computeLabel|].
    intros HR'. extracted_again HR' r'.
    apply raw_numeric in HR'; [|assumption].
    destruct HR' as (op & v & Hop & Hv & HR').
    cbn [removeNumericRefinement model_params numericRefinements
         model_removeNumericRefinement] in HR'.
    apply In_without in HR'. destruct HR' as [_ HR'].
    unfold get_operator, get_numericValue in HR'.
    rewrite attributeName_computeLabel, operator_computeLabel,
      numericValue_computeLabel, Ea in HR'.
    rewrite Eo in Hop. rewrite Ev in Hv. rewrite Hop, Hv in HR'.
    rewrite numeric_is_refl in HR'.
    discriminate.
  - (* tag *)
    eexists. split; [apply clear_tag; now rewrite type_computeLabel|].
    intros HR'. extracted_again HR' r'.
    apply raw_tag in HR'; [|assumption].
    cbn [removeTagRefinement model_params tagRefinements
         model_removeTagRefinement] in HR'.
    apply In_without in HR'. destruct HR' as [_ HR'].
    rewrite name_computeLabel, En, string_eqb_refl in HR'.
    discriminate.
Qed.

(** C8. On the model of the search state: for a record of one of the six
    kinds, [clearRefinementFromState] returns a state, and clearing the same
    record from that state returns that state again. *)
Theorem clearing_twice_is_clearing_once (S : QueryState) (R : refinement) :
  In (type R) recognized_types ->
  exists S1,
    clearRefinementFromState S R = Normal S1
    /\ clearRefinementFromState S1 R = Normal S1.
Proof.
  unfold recognized_types. simpl.
  intros [H|[H|[H|[H|[H|[H|[]]]]]]]; symmetry in H; eexists.
  - rewrite !(clear_facet _ _ H). split; [reflexivity|]. f_equal.
    cbn [removeFacetRefinement model_params].
    unfold model_removeFacetRefinement; cbn -[without].
    now rewrite without_idempotent.
  - rewrite !(clear_disjunctive _ _ H). split; [reflexivity|]. f_equal.
    cbn [removeDisjunctiveFacetRefinement model_params].
    unfold model_removeDisjunctiveFacetRefinement; cbn -[without].
    now rewrite without_idempotent.
  - rewrite !(clear_hierarchical _ _ H). split; [reflexivity|]. f_equal.
    cbn [clearRefinements model_params].
    unfold model_clearRefinements; cbn -[without].
    now rewrite !without_idempotent.
  - rewrite !(clear_exclude _ _ H). split; [reflexivity|]. f_equal.
    cbn [removeExcludeRefinement model_params].
    unfold model_removeExcludeRefinement; cbn -[without].
    now rewrite without_idempotent.
  - rewrite !(clear_numeric _ _ H). split; [reflexivity|]. f_equal.
    cbn [removeNumericRefinement model_params].
    unfold model_removeNumericRefinement; cbn -[without].
    now rewrite without_idempotent.
  - rewrite !(clear_tag _ _ H). split; [reflexivity|]. f_equal.
    cbn [removeTagRefinement model_params].
    unfold model_removeTagRefinement; cbn -[without].
    now rewrite without_idempotent.
Qed.

End ModelFacts.

(** ** The statements on the sample data *)

Module Instances.
Import Model Sample.

Lemma clearRefinementFromState_dispatch_sample :
  clearRefinementFromState state0 color_red
  = Normal (removeFacetRefinement state0 (js "color") (js "red"))
  /\ clearRefinementFromState state0 size_large
     = Normal (removeDisjunctiveFacetRefinement state0 (js "size")
                 (js "large"))
  /\ clearRefinementFromState state0 category_shoes
     = Normal (clearRefinements state0 (js "category"))
  /\ clearRefinementFromState state0 brand_not_acme
     = Normal (removeExcludeRefinement state0 (js "brand") (js "acme"))
  /\ clearRefinementFromState state0 price_ge_10
     = Normal (removeNumericRefinement state0 (js "price")
                 (VString (js ">=")) (VNumber 10))
  /\ clearRefinementFromState state0 tag_sale
     = Normal (removeTagRefinement state0 (js "sale")).
Proof.
  split; [|split; [|split; [|split; [|split]]]].
  - apply (proj1 (clearRefinementFromState_dispatch state0 color_red)).
    reflexivity.
  - apply (proj1 (proj2
             (clearRefinementFromState_dispatch state0 size_large))).
    reflexivity.
  - apply (proj1 (proj2 (proj2
             (clearRefinementFromState_dispatch state0 category_shoes)))).
    reflexivity.
  - apply (proj1 (proj2 (proj2 (proj2
             (clearRefinementFromState_dispatch state0 brand_not_acme))))).
    reflexivity.
  - apply (proj1 (proj2 (proj2 (proj2 (proj2
             (clearRefinementFromState_dispatch state0 price_ge_10)))))).
    reflexivity.
  - apply (proj2 (proj2 (proj2 (proj2 (proj2
             (clearRefinementFromState_dispatch state0 tag_sale)))))).
    reflexivity.
Defined.

Lemma clearRefinementFromState_unrecognized_sample :
  ~ In (type unknown_kind) recognized_types
  /\ clearRefinementFromState state0 unknown_kind
     = Throw (js "clearRefinement: type range is not handled").
Proof.
  assert (H : ~ In (type unknown_kind) recognized_types).
  { vm_compute. intros [H|[H|[H|[H|[H|[H|[]]]]]]]; discriminate H. }
  split; [exact H|].
  apply (proj1 (clearRefinementFromState_unrecognized state0 unknown_kind)).
  exact H.
Defined.

Lemma extract_filters_listed_attributes_sample :
  Permutation
    (getFilteredRefinements no_results state0 [js "color"] true)
    (map computeLabel [color_red; color_blue])
  /\ Permutation
       (getFilteredRefinements no_results state0 [] true)
       (map computeLabel (getRefinements no_results state0)).
Proof.
  split.
  - refine (proj1 (proj1 (extract_filters_listed_attributes
                             no_results state0 [js "color"] true) _ _));
      [reflexivity | discriminate].
  - apply (proj2 (extract_filters_listed_attributes
                    no_results state0 [] true)).
    reflexivity.
Defined.

Lemma computeLabel_by_operator_sample :
  computedLabel (computeLabel color_red) = Some (js "red")
  /\ computedLabel (computeLabel price_ge_10)
     = Some (greater_or_equal_sign ++ js " 10")
  /\ computedLabel (computeLabel price_le_5)
     = Some (less_or_equal_sign ++ js " 5")
  /\ computedLabel (computeLabel price_eq_3) = Some (js "= 3")
  /\ computedLabel (computeLabel price_ge_10) <> None.
Proof.
  pose proof (@computeLabel_by_operator Results QueryState model_utils)
    as [cases extracted].
  split; [|split; [|split; [|split]]].
  - apply (proj1 (cases color_red)). reflexivity.
  - apply (proj1 (proj2 (cases price_ge_10))). reflexivity.
  - apply (proj1 (proj2 (proj2 (cases price_le_5)))). reflexivity.
  - apply (proj2 (proj2 (proj2 (cases price_eq_3))) (js "=")).
    + reflexivity.
    + vm_compute. discriminate.
    + vm_compute. discriminate.
  - apply (extracted no_results no_results state0 state0 [] [] false false
             (computeLabel price_ge_10) (computeLabel price_ge_10));
      vm_compute; auto.
Defined.

Lemma computeLabel_operator_not_a_string_sample :
  computedLabel (computeLabel odd_operator) = Some (js "10").
Proof.
  apply (proj1 (computeLabel_operator_not_a_string odd_operator)
           (VNumber 7)).
  - reflexivity.
  - discriminate.
Defined.

Lemma cleared_refinement_not_extracted_again_sample :
  In (computeLabel color_red)
    (getFilteredRefinements no_results state0 [] false)
  /\ exists S',
       clearRefinementFromState state0 (computeLabel color_red) = Normal S'
       /\ ~ In (computeLabel color_red)
            (getFilteredRefinements no_results S' [] false).
Proof.
  assert (H : In (computeLabel color_red)
                (getFilteredRefinements no_results state0 [] false)).
  { vm_compute. right. left. reflexivity. }
  split; [exact H|].
  apply (ModelFacts.cleared_refinement_not_extracted_again
           no_results no_results state0 [] [] false false
           (computeLabel color_red)).
  exact H.
Defined.

Lemma clearing_twice_is_clearing_once_sample :
  exists S1,
    clearRefinementFromState state0 color_red = Normal S1
    /\ clearRefinementFromState S1 color_red = Normal S1.
Proof.
  apply (ModelFacts.clearing_twice_is_clearing_once state0 color_red).
  left. reflexivity.
Defined.

(** The examples of the specification, on [state0]. *)

Example extract_sample_order :
  map name (getFilteredRefinements no_results state0 [] false)
  = [js "blue"; js "red"; js "10"; js "sale"].
Proof. reflexivity. Qed.

Example extract_sample_declared_first :
  map name (getFilteredRefinements no_results state0 [js "price"] false)
  = [js "10"; js "blue"; js "red"; js "sale"].
Proof. reflexivity. Qed.

Example extract_sample_only_listed :
  map name (getFilteredRefinements no_results state0 [js "color"] true)
  = [js "blue"; js "red"].
Proof. reflexivity. Qed.

Example extract_sample_labels :
  map computedLabel
    (getFilteredRefinements no_results state0 [js "price"] true)
  = [Some (greater_or_equal_sign ++ js " 10")].
Proof. reflexivity. Qed.

Example clear_sample_then_extract :
  match clearRefinementFromState state0 (computeLabel color_red) with
  | Normal S' =>
      map name (getFilteredRefinements no_results S' [] false)
      = [js "blue"; js "10"; js "sale"]
  | Throw _ => False
  end.
Proof. reflexivity. Qed.

End Instances.

(** * Further properties of the connector *)

(** ** Priority indices *)

Lemma string_ltb_asym (a b : jsstring) :
  string_ltb a b = true -> string_ltb b a = false.
Proof.
  revert b; induction a as [|x a IH]; intros [|y b]; simpl; try congruence.
  destruct (N.ltb_spec x y) as [L|L].
  - intros _. destruct (N.ltb_spec y x); [lia|].
    destruct (N.eqb_spec y x); [lia | reflexivity].
  - destruct (N.eqb_spec x y) as [->|Ne]; [|discriminate].
    intros H. rewrite N.ltb_irrefl, N.eqb_refl. now apply IH.
Qed.

(** Swapping the arguments of the comparator negates its result. *)
Lemma compareRefinements_swap
    (attributeNames otherAttributeNames : list jsstring) (a b : refinement) :
  compareRefinements attributeNames otherAttributeNames b a
  = - compareRefinements attributeNames otherAttributeNames a b.
Proof.
  unfold compareRefinements.
  set (ka := getRestrictedIndexForSort _ _ (attributeName a)).
  set (kb := getRestrictedIndexForSort _ _ (attributeName b)).
  rewrite (string_eqb_sym (name b) (name a)).
  destruct (Z.eqb_spec ka kb), (Z.eqb_spec kb ka); try lia.
  - destruct (string_eqb (name a) (name b)) eqn:En; [lia|].
    destruct (string_ltb (name a) (name b)) eqn:El.
    + rewrite (string_ltb_asym _ _ El). lia.
    + rewrite (string_ltb_total _ _ El En). lia.
  - destruct (Z.ltb_spec ka kb), (Z.ltb_spec kb ka); lia.
Qed.

(** [position] is the index of the first occurrence. *)
Lemma position_first (l : list jsstring) (x : jsstring) :
  In x l ->
  nth_error l (position l x) = Some x
  /\ forall j, (j < position l x)%nat -> nth_error l j <> Some x.
Proof.
  induction l as [|y l IH]; [intros []|].
  intros H. simpl. destruct (string_eqb y x) eqn:E.
  - apply string_eqb_eq in E; subst. split; [reflexivity | intros j Hj; lia].
  - apply string_eqb_neq in E. destruct H as [H|H]; [congruence|].
    destruct (IH H) as [Hn Hf]. split; [exact Hn|].
    intros [|j] Hj; simpl; [congruence | apply Hf; lia].
Qed.

Lemma position_absent (l : list jsstring) (x : jsstring) :
  ~ In x l -> position l x = length l.
Proof.
  induction l as [|y l IH]; [reflexivity|].
  intros H. simpl in *. destruct (string_eqb y x) eqn:E.
  - apply string_eqb_eq in E. tauto.
  - f_equal. apply IH. tauto.
Qed.

Lemma position_inj (l : list jsstring) (x y : jsstring) :
  In x l -> In y l -> position l x = position l y -> x = y.
Proof.
  intros Hx Hy E.
  destruct (position_first l x Hx) as [Nx _].
  destruct (position_first l y Hy) as [Ny _].
  rewrite E in Nx. congruence.
Qed.

Section PriorityIndex.

Variables attributeNames otherAttributeNames : list jsstring.

Let index : jsstring -> Z :=
  getRestrictedIndexForSort attributeNames otherAttributeNames.

(** X1. The index of a declared name is the position of its first
    occurrence in the declared list; the index of an undeclared name of the
    tail is the length of the declared list plus the position of its first
    occurrence in the tail; a name of neither list gets the length of the
    declared list minus one. *)
Theorem getRestrictedIndexForSort_range (x : jsstring) :
  (In x attributeNames ->
   exists i,
     index x = Z.of_nat i /\ (i < length attributeNames)%nat
     /\ nth_error attributeNames i = Some x
     /\ forall j, (j < i)%nat -> nth_error attributeNames j <> Some x)
  /\ (~ In x attributeNames -> In x otherAttributeNames ->
      exists i,
        index x = Z.of_nat (length attributeNames) + Z.of_nat i
        /\ (i < length otherAttributeNames)%nat
        /\ nth_error otherAttributeNames i = Some x
        /\ forall j, (j < i)%nat -> nth_error otherAttributeNames j <> Some x)
  /\ (~ In x attributeNames -> ~ In x otherAttributeNames ->
      index x = Z.of_nat (length attributeNames) - 1).
Proof.
  unfold index. split; [|split].
  - intros H. exists (position attributeNames x).
    pose proof (position_first _ _ H) as [Hn Hf].
    apply mem_In in H.
    rewrite (key_listed _ _ _ H).
    repeat split; [now apply position_bound | exact Hn | exact Hf].
  - intros Hx Ho. exists (position otherAttributeNames x).
    pose proof (position_first _ _ Ho) as [Hn Hf].
    apply mem_not_In in Hx. apply mem_In in Ho.
    rewrite (key_unlisted _ _ _ Hx), Ho.
    repeat split; [now apply position_bound | exact Hn | exact Hf].
  - intros Hx Ho. apply mem_not_In in Hx, Ho.
    rewrite (key_unlisted _ _ _ Hx), Ho. lia.
Qed.

Lemma index_inj (x y : jsstring) :
  In x attributeNames \/ In x otherAttributeNames ->
  In y attributeNames \/ In y otherAttributeNames ->
  index x = index y -> x = y.
Proof.
  unfold index. intros Hx Hy.
  destruct (mem x attributeNames) eqn:Lx, (mem y attributeNames) eqn:Ly.
  - rewrite (key_listed _ _ _ Lx), (key_listed _ _ _ Ly). intros E.
    apply (position_inj attributeNames); [now apply mem_In ..|lia].
  - rewrite (key_listed _ _ _ Lx), (key_unlisted _ _ _ Ly).
    pose proof (position_bound _ _ Lx).
    apply mem_not_In in Ly. destruct Hy as [Hy|Hy]; [tauto|].
    apply mem_In in Hy. rewrite Hy. lia.
  - rewrite (key_unlisted _ _ _ Lx), (key_listed _ _ _ Ly).
    pose proof (position_bound _ _ Ly).
    apply mem_not_In in Lx. destruct Hx as [Hx|Hx]; [tauto|].
    apply mem_In in Hx. rewrite Hx. lia.
  - rewrite (key_unlisted _ _ _ Lx), (key_unlisted _ _ _ Ly).
    apply mem_not_In in Lx, Ly.
    destruct Hx as [Hx|Hx]; [tauto|]. destruct Hy as [Hy|Hy]; [tauto|].
    pose proof Hx as Mx. pose proof Hy as My.
    apply mem_In in Mx, My. rewrite Mx, My. intros E.
    apply (position_inj otherAttributeNames); [assumption ..|lia].
Qed.

(** X2. Two names that each occur in the declared list or in the tail and
    get the same index are the same name. *)
Theorem getRestrictedIndexForSort_injective (x y : jsstring) :
  In x attributeNames \/ In x otherAttributeNames ->
  In y attributeNames \/ In y otherAttributeNames ->
  index x = index y -> x = y.
Proof. exact (index_inj x y). Qed.

(** X3. A name of neither list gets the index of the last declared name,
    when that one occurs nowhere earlier in the declared list: the
    comparator then orders a record of the unknown attribute and a record of
    the last declared attribute by their names alone. *)
Theorem getRestrictedIndexForSort_unknown_name
    (declared : list jsstring) (last x : jsstring) (a b : refinement) :
  attributeNames = declared ++ [last] -> ~ In last declared ->
  ~ In x attributeNames -> ~ In x otherAttributeNames ->
  index x = index last
  /\ (attributeName a = x -> attributeName b = last ->
      compareRefinements attributeNames otherAttributeNames a b
      = if string_eqb (name a) (name b) then 0
        else if string_ltb (name a) (name b) then -1 else 1).
Proof.
  intros E Hl Hx Ho.
  assert (I : index x = index last).
  { unfold index.
    assert (Ll : mem last attributeNames = true)
      by (apply mem_In; rewrite E, in_app_iff; simpl; tauto).
    apply mem_not_In in Hx, Ho.
    rewrite (key_unlisted _ _ _ Hx), Ho, (key_listed _ _ _ Ll).
    rewrite E at 2.
    assert (P : position (declared ++ [last]) last = length declared).
    { clear -Hl. induction declared as [|y d IH]; simpl.
      - now rewrite string_eqb_refl.
      - simpl in Hl. destruct (string_eqb y last) eqn:Ey.
        + apply string_eqb_eq in Ey. tauto.
        + f_equal. apply IH. tauto. }
    rewrite P, E, length_app. simpl. lia. }
  split; [exact I|].
  intros Ha Hb. unfold compareRefinements. rewrite Ha, Hb.
  fold (index x) (index last). rewrite I, Z.eqb_refl. reflexivity.
Qed.

(** X4. The comparator returns -1, 0 or 1, and swapping its arguments
    negates the result. *)
Theorem compareRefinements_antisymmetric (a b : refinement) :
  (compareRefinements attributeNames otherAttributeNames a b = -1
   \/ compareRefinements attributeNames otherAttributeNames a b = 0
   \/ compareRefinements attributeNames otherAttributeNames a b = 1)
  /\ compareRefinements attributeNames otherAttributeNames b a
     = - compareRefinements attributeNames otherAttributeNames a b.
Proof.
  split; [|apply compareRefinements_swap].
  unfold compareRefinements.
  destruct (_ =? _); [|destruct (_ <? _); lia].
  destruct (string_eqb _ _); [lia|]. destruct (string_ltb _ _); lia.
Qed.

(** X5. The comparator is transitive: when [a] need not move behind [b] and
    [b] need not move behind [c], [a] need not move behind [c]; and the same
    for the strict order. *)
Theorem compareRefinements_transitive (a b c : refinement) :
  (compareRefinements attributeNames otherAttributeNames a b <= 0 ->
   compareRefinements attributeNames otherAttributeNames b c <= 0 ->
   compareRefinements attributeNames otherAttributeNames a c <= 0)
  /\ (compareRefinements attributeNames otherAttributeNames a b < 0 ->
      compareRefinements attributeNames otherAttributeNames b c < 0 ->
      compareRefinements attributeNames otherAttributeNames a c < 0).
Proof.
  pose proof (compareRefinements_consistent attributeNames
                otherAttributeNames) as [_ Htrans].
  split; [apply Htrans|].
  intros Hab Hbc.
  assert (Hac : compareRefinements attributeNames otherAttributeNames a c
                <= 0) by (apply (Htrans a b c); lia).
  destruct (Z.eq_dec
              (compareRefinements attributeNames otherAttributeNames a c) 0)
    as [Z0|NZ]; [exfalso | lia].
  (* then [c] need not move behind [a], nor behind [b] *)
  pose proof (compareRefinements_swap attributeNames otherAttributeNames
                a c) as Sac.
  pose proof (compareRefinements_swap attributeNames otherAttributeNames
                b c) as Sbc.
  assert (Hcb : compareRefinements attributeNames otherAttributeNames c b
                <= 0) by (apply (Htrans c a b); lia).
  lia.
Qed.

End PriorityIndex.

(** ** The tail and the extractor *)

Lemma filter_map_swap {A B : Type} (f : A -> B) (p : B -> bool)
    (l : list A) :
  filter p (map f l) = map f (filter (fun a => p (f a)) l).
Proof.
  induction l as [|a l IH]; [reflexivity|].
  simpl. destruct (p (f a)); simpl; now rewrite IH.
Qed.

(** X6. The tail [getFilteredRefinements] builds holds the attribute name
    of every raw refinement whose attribute is not declared, in the order of
    the raw refinements and once per refinement; it shares no name with the
    declared list. *)
Theorem otherAttributeNames_unlisted
    (attributeNames : list jsstring) (raw : list refinement) :
  otherAttributeNames attributeNames raw
  = map attributeName
      (filter (fun r => negb (is_listed attributeNames r)) raw)
  /\ forall x,
       In x (otherAttributeNames attributeNames raw) ->
       ~ In x attributeNames.
Proof.
  rewrite otherAttributeNames_filter. split.
  - apply (filter_map_swap attributeName
             (fun a => negb (mem a attributeNames))).
  - intros x H. apply filter_In in H. destruct H as [_ H].
    apply mem_not_In. now apply negb_true_iff.
Qed.

Section ExtractorFacts.

Context {Results State : Type}.
Context {utils : Utils Results State}.

Variables (results : Results) (state : State).
Variable attributeNames : list jsstring.

(** Every raw attribute name is declared or in the tail. *)
Lemma raw_attribute_indexed (r : refinement) :
  In r (getRefinements results state) ->
  In (attributeName r) attributeNames
  \/ In (attributeName r)
       (otherAttributeNames attributeNames (getRefinements results state)).
Proof.
  intros H. destruct (mem (attributeName r) attributeNames) eqn:M.
  - left. now apply mem_In.
  - right. rewrite otherAttributeNames_filter. apply filter_In.
    split; [now apply in_map | now rewrite M].
Qed.

(** X7. With the tail built from the raw refinements, the comparator
    returns 0 on two raw refinements exactly when they carry the same
    attribute name and the same name. *)
Theorem compareRefinements_zero_on_raw (a b : refinement) :
  In a (getRefinements results state) ->
  In b (getRefinements results state) ->
  (compareRefinements attributeNames
     (otherAttributeNames attributeNames (getRefinements results state))
     a b = 0
   <-> attributeName a = attributeName b /\ name a = name b).
Proof.
  intros Ha Hb.
  pose proof (index_inj attributeNames _ _ _
                (raw_attribute_indexed a Ha) (raw_attribute_indexed b Hb))
    as Inj.
  unfold compareRefinements.
  destruct (Z.eqb_spec
              (getRestrictedIndexForSort attributeNames
                 (otherAttributeNames attributeNames
                    (getRefinements results state)) (attributeName a))
              (getRestrictedIndexForSort attributeNames
                 (otherAttributeNames attributeNames
                    (getRefinements results state)) (attributeName b)))
    as [E|N].
  - destruct (string_eqb (name a) (name b)) eqn:En.
    + apply string_eqb_eq in En. split; [auto | reflexivity].
    + apply string_eqb_neq in En.
      destruct (string_ltb (name a) (name b)); split;
        try (intros [_ ?]; congruence); lia.
  - destruct (_ <? _); split; try lia;
      intros [Ea _]; rewrite Ea in N; congruence.
Qed.

(** X8. With a non-empty declared list, the output under
    [onlyListedAttributes] is the output without it, stripped of the records
    whose attribute name is not declared: same records, same order. *)
Theorem extract_listed_is_filtered_extract :
  attributeNames <> [] ->
  getFilteredRefinements results state attributeNames true
  = filter (is_listed attributeNames)
      (getFilteredRefinements results state attributeNames false).
Proof.
  intros Hne. rewrite !getFilteredRefinements_steps.
  destruct attributeNames as [|a names] eqn:E; [congruence|].
  cbn [andb isEmpty negb]. rewrite filter_map_swap.
  f_equal. apply filter_ext. intros r. unfold is_listed.
  now rewrite attributeName_computeLabel.
Qed.

(** X9. When the declared list is empty, or when every raw refinement has
    a declared attribute name, [onlyListedAttributes] changes nothing. *)
Theorem extract_flag_without_effect :
  attributeNames = []
  \/ (forall r, In r (getRefinements results state) ->
                In (attributeName r) attributeNames) ->
  getFilteredRefinements results state attributeNames true
  = getFilteredRefinements results state attributeNames false.
Proof.
  intros H. rewrite !getFilteredRefinements_steps. cbn [andb].
  destruct (isEmpty attributeNames) eqn:Em; [reflexivity|].
  destruct H as [->|H]; [discriminate|]. cbn [negb]. f_equal.
  apply forallb_filter_id. apply forallb_forall. intros r Hr.
  apply is_listed_In, H. revert Hr. apply sort_In.
Qed.

End ExtractorFacts.

(** ** Labels and clearing *)

(** X10. Labelling a record twice is labelling it once; a label the record
    already carries is discarded; the fields other than [computedLabel] stay
    as they were. *)
Theorem computeLabel_idempotent (r : refinement) (stale : jsstring) :
  computeLabel (computeLabel r) = computeLabel r
  /\ computeLabel (set_computedLabel r stale) = computeLabel r
  /\ type (computeLabel r) = type r
  /\ attributeName (computeLabel r) = attributeName r
  /\ name (computeLabel r) = name r
  /\ operator (computeLabel r) = operator r
  /\ numericValue (computeLabel r) = numericValue r
  /\ count (computeLabel r) = count r.
Proof.
  rewrite !computeLabel_label_of. destruct r; cbn. tauto.
Qed.

Section ClearingFacts.

Context {State : Type}.
Context {params : SearchParameters State}.

Lemma clearRefinementFromState_fields (state : State) (r r' : refinement) :
  type r' = type r -> attributeName r' = attributeName r ->
  name r' = name r -> operator r' = operator r ->
  numericValue r' = numericValue r ->
  clearRefinementFromState state r' = clearRefinementFromState state r.
Proof.
  intros Et Ea En Eo Ev.
  unfold clearRefinementFromState, get_operator, get_numericValue.
  now rewrite Et, Ea, En, Eo, Ev.
Qed.

(** X11. What [clearRefinementFromState] does with a record depends on its
    [type], [attributeName], [name], [operator] and [numericValue] only; in
    particular the labelled copy of a record clears what the record
    clears. *)
Theorem clearRefinementFromState_ignores_label
    (state : State) (r r' : refinement) :
  (type r' = type r -> attributeName r' = attributeName r ->
   name r' = name r -> operator r' = operator r ->
   numericValue r' = numericValue r ->
   clearRefinementFromState state r' = clearRefinementFromState state r)
  /\ clearRefinementFromState state (computeLabel r)
     = clearRefinementFromState state r.
Proof.
  split; [apply clearRefinementFromState_fields|].
  apply clearRefinementFromState_fields;
    now rewrite computeLabel_label_of.
Qed.

End ClearingFacts.

(** ** The widget factory *)

Module WidgetFacts.
Import Widget.

Lemma isString_spec (v : param) :
  isString v = true <-> exists s, v = PString s.
Proof.
  destruct v; simpl; split; try discriminate; try (intros [? [=]]); eauto.
Qed.

Lemma isFunction_spec (v : param) :
  isFunction v = true <-> exists f, v = PFunction f.
Proof.
  destruct v; simpl; split; try discriminate; try (intros [? [=]]); eauto.
Qed.

Lemma isUndefined_spec (v : param) : isUndefined v = true <-> v = PUndefined.
Proof. destruct v; simpl; split; congruence. Qed.

Lemma attributesOK_step_valid (val : param) :
  attributesOK_step true val = true <-> valid_attribute val.
Proof.
  unfold attributesOK_step, valid_attribute.
  rewrite !andb_true_iff, !orb_true_iff, !isString_spec, !isFunction_spec,
    !isUndefined_spec.
  tauto.
Qed.

Lemma attributesOK_step_false (val : param) :
  attributesOK_step false val = false.
Proof. reflexivity. Qed.

(** The [reduce] over the attributes is the conjunction of the checks. *)
Lemma attributesOK_fold (l : list param) :
  fold_left attributesOK_step l true = true <-> Forall valid_attribute l.
Proof.
  induction l as [|val l IH]; simpl.
  - split; [constructor | reflexivity].
  - destruct (attributesOK_step true val) eqn:E.
    + rewrite IH. apply attributesOK_step_valid in E.
      split; [now constructor | now inversion 1].
    + assert (F : fold_left attributesOK_step l false = false).
      { clear. induction l as [|v l IH]; simpl; [reflexivity | exact IH]. }
      rewrite F. split; [discriminate|].
      inversion 1 as [|? ? Hv _]; subst.
      apply attributesOK_step_valid in Hv. congruence.
Qed.

(** What acceptance by the factory means and gives. *)
Lemma makeWidget_Normal (wp : widgetParams) (w : widget) :
  makeWidget wp = Normal w <->
  exists elements b,
    default (PArray []) (attributes wp) = PArray elements
    /\ Forall valid_attribute elements
    /\ default (PBoolean false) (onlyListedAttributes wp) = PBoolean b
    /\ w = {| attributeNames :=
                map (fun a => string_of (prop a (js "name"))) elements;
              restrictedTo :=
                if b
                then map (fun a => string_of (prop a (js "name"))) elements
                else [];
              attributesObj := fold_left attributesObj_step elements [];
              onlyListed := b;
              clearsQueryParam :=
                default (PBoolean false) (clearsQuery wp) |}.
Proof.
  unfold makeWidget.
  destruct (default (PArray []) (attributes wp)) as [| | | | | |elements|];
    cbn [isArray negb orb andb elements_of];
    try (split; [discriminate | intros (? & ? & [=] & _)]).
  destruct (fold_left attributesOK_step elements true) eqn:OK;
    cbn [negb orb].
  - apply attributesOK_fold in OK.
    destruct (default (PBoolean false) (onlyListedAttributes wp))
      as [| |b| | | | |]; cbn [isBoolean negb boolean_of];
      try (split; [discriminate | intros (? & ? & _ & _ & [=] & _)]).
    split.
    + intros [= <-]. exists elements, b. auto.
    + intros (e & b' & [= <-] & _ & [= <-] & ->). reflexivity.
  - split; [discriminate|].
    intros (e & b & [= <-] & V & _). apply attributesOK_fold in V.
    congruence.
Qed.

(** X12. The factory accepts its parameters exactly when [attributes],
    [undefined] standing for the empty array, is an array of plain objects with
    a string [name], a [label] that is absent or a string, a [template] that
    is absent, a string or a function and a [transformData] that is absent or
    a function, and [onlyListedAttributes], [undefined] standing for
    [false], is a boolean; otherwise it throws the usage message.
    [clearsQuery] is not checked. *)
Theorem makeWidget_accepts (wp : widgetParams) :
  ((exists w, makeWidget wp = Normal w) <->
   exists elements b,
     default (PArray []) (attributes wp) = PArray elements
     /\ Forall valid_attribute elements
     /\ default (PBoolean false) (onlyListedAttributes wp) = PBoolean b)
  /\ ((forall w, makeWidget wp <> Normal w) -> makeWidget wp = Throw usage).
Proof.
  split.
  - split.
    + intros [w H]. apply makeWidget_Normal in H.
      destruct H as (e & b & H1 & H2 & H3 & _). eauto.
    + intros (e & b & H1 & H2 & H3). eexists.
      apply makeWidget_Normal. exists e, b. eauto.
  - unfold makeWidget. destruct (_ || _); [reflexivity|].
    intros H. now destruct (H _ eq_refl).
Qed.

Lemma valid_attribute_name (val : param) :
  valid_attribute val ->
  PString (string_of (prop val (js "name"))) = prop val (js "name").
Proof. intros (_ & (s & ->) & _). reflexivity. Qed.

(** X13. An accepted widget keeps the [name] of every attribute, in the
    order of the array, restricts clearing to these names when
    [onlyListedAttributes] is [true] and to nothing otherwise, and keeps
    [clearsQuery] as given, [false] when it is [undefined]. *)
Theorem makeWidget_keeps (wp : widgetParams) (w : widget) :
  makeWidget wp = Normal w ->
  map PString (attributeNames w)
  = map (fun a => prop a (js "name"))
      (elements_of (default (PArray []) (attributes wp)))
  /\ default (PBoolean false) (onlyListedAttributes wp)
     = PBoolean (onlyListed w)
  /\ restrictedTo w = (if onlyListed w then attributeNames w else [])
  /\ clearsQueryParam w = default (PBoolean false) (clearsQuery wp).
Proof.
  intros H. apply makeWidget_Normal in H.
  destruct H as (e & b & -> & V & -> & ->). cbn.
  repeat split. rewrite map_map. apply map_ext_in.
  intros a Ha. apply valid_attribute_name.
  rewrite Forall_forall in V. now apply V.
Qed.





(** ** The callbacks of the widget *)

Section CallbackFacts.

Context {Results State Helper URL : Type}.
Context {utils : Utils Results State}.
Context {params : SearchParameters State}.
Context {search_helper : SearchHelper Helper State}.



(** X15. An accepted widget shows the records of the unrestricted
    extraction whose attribute name is in [restrictedTo], and all of them
    when [restrictedTo] is empty: what it lists is what its clear-all is
    restricted to. *)
Theorem render_refinements_restrictedTo
    (wp : widgetParams) (w : widget) (results : Results) (state : State) :
  makeWidget wp = Normal w ->
  render_refinements w results state
  = if isEmpty (restrictedTo w)
    then getFilteredRefinements results state (attributeNames w) false
    else filter (is_listed (restrictedTo w))
           (getFilteredRefinements results state (attributeNames w) false).
Proof.
  intros H. apply makeWidget_Normal in H.
  destruct H as (e & b & _ & _ & _ & ->).
  unfold render_refinements. cbn [attributeNames restrictedTo onlyListed].
  set (names := map (fun a => string_of (prop a (js "name"))) e).
  rewrite !getFilteredRefinements_steps. cbn [andb].
  destruct b; [|reflexivity].
  destruct names as [|n names'] eqn:E; [reflexivity|].
  cbn [isEmpty negb]. rewrite filter_map_swap. f_equal.
  apply filter_ext. intros r. unfold is_listed.
  now rewrite attributeName_computeLabel.
Qed.



End CallbackFacts.

End WidgetFacts.

(** ** The further statements on the sample data *)

Module FurtherInstances.
Import Model Sample Widget WidgetSample.

Lemma getRestrictedIndexForSort_range_sample :
  getRestrictedIndexForSort [js "price"] [js "color"; js "color"]
    (js "size") = 0
  /\ (exists i,
        getRestrictedIndexForSort [js "price"] [js "color"; js "color"]
          (js "color") = 1 + Z.of_nat i
        /\ (i < 2)%nat)
  /\ exists i,
       getRestrictedIndexForSort [js "price"] [js "color"; js "color"]
         (js "price") = Z.of_nat i
       /\ (i < 1)%nat.
Proof.
  pose proof (getRestrictedIndexForSort_range
                [js "price"] [js "color"; js "color"]) as R.
  split; [|split].
  - apply (proj2 (proj2 (R (js "size")))).
    + vm_compute. intros [H|[]]. discriminate H.
    + vm_compute. intros [H|[H|[]]]; discriminate H.
  - destruct (proj1 (proj2 (R (js "color")))) as (i & Hi & Hlt & _).
    + vm_compute. intros [H|[]]. discriminate H.
    + left. reflexivity.
    + exists i. split; [exact Hi | exact Hlt].
  - destruct (proj1 (R (js "price"))) as (i & Hi & Hlt & _).
    + left. reflexivity.
    + exists i. split; [exact Hi | exact Hlt].
Defined.

Lemma getRestrictedIndexForSort_injective_sample :
  attributeName color_red = attributeName color_blue.
Proof.
  apply (getRestrictedIndexForSort_injective
           [js "price"] [js "color"]
           (attributeName color_red) (attributeName color_blue)).
  - right. left. reflexivity.
  - right. left. reflexivity.
  - reflexivity.
Defined.

Lemma getRestrictedIndexForSort_unknown_name_sample :
  getRestrictedIndexForSort [js "color"; js "price"] [] (js "size")
  = getRestrictedIndexForSort [js "color"; js "price"] [] (js "price").
Proof.
  refine (proj1 (getRestrictedIndexForSort_unknown_name
                   [js "color"; js "price"] [] [js "color"] (js "price")
                   (js "size") size_large price_ge_10 _ _ _ _)).
  - reflexivity.
  - vm_compute. intros [H|[]]. discriminate H.
  - vm_compute. intros [H|[H|[]]]; discriminate H.
  - intros [].
Defined.

Lemma compareRefinements_transitive_sample :
  compareRefinements [] [js "color"; js "_tags"] color_blue tag_sale <= 0.
Proof.
  apply (proj1 (compareRefinements_transitive
                  [] [js "color"; js "_tags"]
                  color_blue color_red tag_sale)).
  - vm_compute. discriminate.
  - vm_compute. discriminate.
Defined.

Lemma compareRefinements_zero_on_raw_sample :
  compareRefinements []
    (otherAttributeNames [] (getRefinements no_results state0))
    color_red color_red = 0.
Proof.
  apply (compareRefinements_zero_on_raw no_results state0 []
           color_red color_red).
  - left. reflexivity.
  - left. reflexivity.
  - split; reflexivity.
Defined.

Lemma extract_listed_is_filtered_extract_sample :
  getFilteredRefinements no_results state0 [js "color"] true
  = filter (is_listed [js "color"])
      (getFilteredRefinements no_results state0 [js "color"] false).
Proof.
  apply (extract_listed_is_filtered_extract no_results state0 [js "color"]).
  discriminate.
Defined.

Lemma extract_flag_without_effect_sample :
  getFilteredRefinements no_results state0 [] true
  = getFilteredRefinements no_results state0 [] false.
Proof.
  apply (extract_flag_without_effect no_results state0 []).
  left. reflexivity.
Defined.

Lemma clearRefinementFromState_ignores_label_sample :
  clearRefinementFromState state0 (set_computedLabel color_red (js "old"))
  = clearRefinementFromState state0 color_red.
Proof.
  apply (proj1 (clearRefinementFromState_ignores_label state0 color_red
                  (set_computedLabel color_red (js "old"))));
    reflexivity.
Defined.

Lemma makeWidget_accepts_sample :
  (exists w, makeWidget listed_only = Normal w)
  /\ makeWidget bad_flag = Throw usage.
Proof.
  split.
  - apply (proj1 (WidgetFacts.makeWidget_accepts listed_only)).
    exists [color_attribute; price_attribute; color_again], true.
    split; [reflexivity|]. split; [|reflexivity].
    repeat (apply Forall_cons; [vm_compute; repeat split; eauto 10|]).
    apply Forall_nil.
  - apply (proj2 (WidgetFacts.makeWidget_accepts bad_flag)).
    intros w. vm_compute. discriminate.
Defined.

Lemma makeWidget_keeps_sample :
  exists w,
    makeWidget listed_only = Normal w
    /\ attributeNames w = [js "color"; js "price"; js "color"]
    /\ restrictedTo w = attributeNames w.
Proof.
  eexists. split; [reflexivity|].
  split; [reflexivity|].
  apply (proj1 (proj2 (proj2 (WidgetFacts.makeWidget_keeps listed_only _
                                eq_refl)))).
Defined.


Lemma render_refinements_restrictedTo_sample :
  exists w,
    makeWidget listed_only = Normal w
    /\ render_refinements w no_results state0
       = filter (is_listed (restrictedTo w))
           (getFilteredRefinements no_results state0 (attributeNames w)
              false).
Proof.
  eexists. split; [reflexivity|].
  apply (WidgetFacts.render_refinements_restrictedTo listed_only _
           no_results state0 eq_refl).
Defined.




End FurtherInstances.
